(** * Sermon emailer: configuration, channel fetch, selection and daily cycle

    A shallow embedding of [config.py], [youtube_service.py],
    [email_service.py] and [sermon_emailer.py].

    Conventions.
    - A Python [str] is a [string]: the bytes of its UTF-8 encoding; only
      ASCII white space and ASCII digits are recognised as such.
    - A Python [int] is a [Z]; [len] is [Z.of_nat (length _)].
    - A call either returns, raises, or (for the pagination loop only)
      exhausts the fuel it was given: [result].
    - Everything observable (log records, requests sent to the two
      providers together with their replies) is appended to a trace of
      [event]s: a computation is a pair of a [result] and a trace.
    - The two fields [last_sermon_date] and [last_sermon_id] of the
      [SermonEmailer] object are threaded explicitly. *)

From Stdlib Require Import ZArith Lia Ascii String.
From stdpp Require Import base list strings gmap pretty.

Local Open Scope Z_scope.

(** ** Python strings *)

Module Py.

(** [str.isspace] on ASCII: tab to carriage return, the four separators
    28 to 31, and the space. *)
Definition isspace (c : ascii) : bool :=
  let n := nat_of_ascii c in
  ((9 <=? n) && (n <=? 13) || (28 <=? n) && (n <=? 32))%nat.

Fixpoint lstrip (s : string) : string :=
  match s with
  | String c s' => if isspace c then lstrip s' else s
  | EmptyString => EmptyString
  end.

Definition rstrip (s : string) : string :=
  String.rev (lstrip (String.rev s)).

(** [s.strip()] *)
Definition strip (s : string) : string := rstrip (lstrip s).

(** [s.split(sep)] for a one-character separator: the pieces between
    the separators, in order; [cur] is the piece being read, reversed. *)
Fixpoint split_go (sep : ascii) (cur : string) (s : string) : list string :=
  match s with
  | EmptyString => [String.rev cur]
  | String c s' =>
      if decide (c = sep) then String.rev cur :: split_go sep EmptyString s'
      else split_go sep (String c cur) s'
  end.

Definition split (sep : ascii) (s : string) : list string :=
  split_go sep EmptyString s.

(** [c in s] *)
Fixpoint contains (c : ascii) (s : string) : bool :=
  match s with
  | EmptyString => false
  | String d s' => if decide (d = c) then true else contains c s'
  end.

(** [s.startswith(p)] *)
Definition startswith (p s : string) : bool := String.prefix p s.

(** [len(s)] *)
Definition len (s : string) : Z := Z.of_nat (String.length s).

(** Truth value of a [str]: the empty string is false. *)
Definition truthy (s : string) : bool :=
  match s with EmptyString => false | _ => true end.

Definition digit (c : ascii) : option Z :=
  let n := nat_of_ascii c in
  if ((48 <=? n) && (n <=? 57))%nat then Some (Z.of_nat n - 48) else None.

(** Decimal digits, single underscores allowed between two digits. *)
Fixpoint digits (acc : Z) (after_digit : bool) (s : string) : option Z :=
  match s with
  | EmptyString => if after_digit then Some acc else None
  | String c s' =>
      if decide (c = "_"%char) then
        if after_digit then digits acc false s' else None
      else
        match digit c with
        | Some d => digits (10 * acc + d) true s'
        | None => None
        end
  end.

(** [int(s)] in base 10 on ASCII literals; [None] is [ValueError]. *)
Definition int (s : string) : option Z :=
  match strip s with
  | String "-" r => Z.opp <$> digits 0 false r
  | String "+" r => digits 0 false r
  | r => digits 0 false r
  end.

(** [repr(s)] for a string without quotes or escapes. *)
Definition repr (s : string) : string := "'" +:+ s +:+ "'".

End Py.

(** ** Exceptions, results and traces *)

Inductive exn : Type :=
  | ValueError (msg : string)
  | KeyError (key : string)
  | IndexError (msg : string)
  | AssertionError (msg : string)
  | HttpError (msg : string)
  | OtherException (msg : string).

(** [str(e)] *)
Definition exn_str (e : exn) : string :=
  match e with
  | ValueError m | IndexError m | AssertionError m | HttpError m | OtherException m => m
  | KeyError k => Py.repr k
  end.

Inductive result (A : Type) : Type :=
  | Ret (a : A)
  | Raise (e : exn)
  | OutOfFuel.
Arguments Ret {A} a.
Arguments Raise {A} e.
Arguments OutOfFuel {A}.

Inductive level : Type := INFO | WARNING | ERROR.

(** What a remote call answers: a value, or the exception [execute()] /
    [send()] raises. *)
Inductive reply (A : Type) : Type :=
  | Answer (a : A)
  | Fails (e : exn).
Arguments Answer {A} a.
Arguments Fails {A} e.

(** An item of a [playlistItems] page as the code reads it: the four
    fields under ['snippet'].  An item lacking one of them is [None]
    (reading it raises [KeyError]). *)
Record snippet : Type := Snippet {
  videoId : string;
  snippet_title : string;
  channelTitle : string;
  publishedAt : string
}.

(** A [playlistItems().list] response: ['items'] (absent when the response
    is malformed) and the optional ['nextPageToken']. *)
Record playlist_response : Type := PlaylistResponse {
  items : option (list (option snippet));
  nextPageToken : option string
}.

(** A [channels().list] response: ['items'], each item reduced to the
    uploads playlist the code reads from it ([None] when the path
    ['contentDetails']['relatedPlaylists']['uploads'] is missing). *)
Definition channel_response : Type := option (list (option string)).

(** The [Mail] object handed to SendGrid. *)
Record Mail : Type := MkMail {
  from_email : string;
  to_emails : string;
  mail_subject : string;
  content_type : string;
  content_value : string
}.

Inductive event : Type :=
  | Log (lvl : level) (msg : string)
  | ChannelsList (channel_id : string) (r : reply channel_response)
  | PlaylistItemsList (playlistId : string) (maxResults : Z)
      (pageToken : option string) (r : reply playlist_response)
  | SendGridSend (m : Mail) (r : reply Z).

Definition trace : Type := list event.

(** A computation that logs and may raise. *)
Definition Eff (A : Type) : Type := result A * trace.

Definition ret {A} (a : A) : Eff A := (Ret a, []).
Definition raise {A} (e : exn) : Eff A := (Raise e, []).
Definition log (lvl : level) (msg : string) : Eff unit := (Ret tt, [Log lvl msg]).

Definition bind {A B} (m : Eff A) (k : A -> Eff B) : Eff B :=
  match m with
  | (Ret a, t) => let '(r, t') := k a in (r, t ++ t')
  | (Raise e, t) => (Raise e, t)
  | (OutOfFuel, t) => (OutOfFuel, t)
  end.

(** [try: m except Exception as e: h e] *)
Definition try_except {A} (m : Eff A) (h : exn -> Eff A) : Eff A :=
  match m with
  | (Raise e, t) => let '(r, t') := h e in (r, t ++ t')
  | other => other
  end.

Notation "'let*' x ':=' m 'in' k" := (bind m (fun x => k))
  (at level 10, x pattern, m at level 100, k at level 200).

(** ** config.py *)

(** [os.environ] once [load_dotenv()] has run. *)
Abbreviation environ := (gmap string string).

Record Config : Type := MkConfig {
  youtube_api_key : string;
  youtube_channel_ids : list string;
  sendgrid_api_key : string;
  sender_email : string;
  recipient_email : string;
  check_interval_hours : Z;
  log_level : string;
  log_file : string
}.

(** [os.getenv(key, default)] *)
Definition getenv_default (env : environ) (key default : string) : string :=
  match env !! key with
  | Some v => v
  | None => default
  end.

Definition _get_required_env (env : environ) (key : string) : Eff string :=
  match env !! key with
  | Some value =>
      if negb (Py.truthy value) then
        raise (ValueError ("Required environment variable " +:+ key +:+ " is not set"))
      else ret value
  | None =>
      raise (ValueError ("Required environment variable " +:+ key +:+ " is not set"))
  end.

(** [for x in l: body x] *)
Fixpoint for_each {A} (l : list A) (body : A -> Eff unit) : Eff unit :=
  match l with
  | [] => ret tt
  | x :: l' => let* _ := body x in for_each l' body
  end.

(** Truth value of a list: the empty list is false. *)
Definition nonempty {A} (l : list A) : bool :=
  match l with [] => false | _ => true end.

Definition channel_id_format (cid : string) : bool :=
  Py.startswith "UC" cid && (Py.len cid =? 24).

Definition _get_channel_ids (env : environ) : Eff (list string) :=
  let* channel_ids_str := _get_required_env env "YOUTUBE_CHANNEL_IDS" in
  let channel_ids := Py.strip <$> Py.split "," channel_ids_str in
  if negb (nonempty channel_ids) then
    raise (ValueError "No YouTube channel IDs provided")
  else
    let* _ := for_each channel_ids (fun cid =>
      if negb (channel_id_format cid) then
        log WARNING ("Channel ID " +:+ cid +:+ " may not be in the correct format")
      else ret tt) in
    ret channel_ids.

Definition int_env (s : string) : Eff Z :=
  match Py.int s with
  | Some n => ret n
  | None =>
      raise (ValueError ("invalid literal for int() with base 10: " +:+ Py.repr s))
  end.

(** [Config.__init__] *)
Definition Config_init (env : environ) : Eff Config :=
  let* youtube_api_key := _get_required_env env "YOUTUBE_API_KEY" in
  let* youtube_channel_ids := _get_channel_ids env in
  let* sendgrid_api_key := _get_required_env env "SENDGRID_API_KEY" in
  let* sender_email := _get_required_env env "SENDER_EMAIL" in
  let* recipient_email := _get_required_env env "RECIPIENT_EMAIL" in
  let* check_interval_hours := int_env (getenv_default env "CHECK_INTERVAL_HOURS" "24") in
  let log_level := getenv_default env "LOG_LEVEL" "INFO" in
  let log_file := getenv_default env "LOG_FILE" "logs/sermon_emailer.log" in
  ret (MkConfig youtube_api_key youtube_channel_ids sendgrid_api_key
         sender_email recipient_email check_interval_hours log_level log_file).

Definition py_assert (b : bool) (msg : string) : Eff unit :=
  if b then ret tt else raise (AssertionError msg).

(** [Config.validate]; the handler catches [AssertionError] only. *)
Definition validate (self : Config) : Eff bool :=
  try_except
    (let* _ := py_assert (Py.truthy (youtube_api_key self)) "YouTube API key is required" in
     let* _ := py_assert (nonempty (youtube_channel_ids self))
                 "At least one YouTube channel ID is required" in
     let* _ := py_assert (Py.truthy (sendgrid_api_key self)) "SendGrid API key is required" in
     let* _ := py_assert (Py.truthy (sender_email self)) "Sender email is required" in
     let* _ := py_assert (Py.truthy (recipient_email self)) "Recipient email is required" in
     let* _ := py_assert (Py.contains "@" (sender_email self)) "Invalid sender email format" in
     let* _ := py_assert (Py.contains "@" (recipient_email self))
                 "Invalid recipient email format" in
     let* _ := py_assert (0 <? check_interval_hours self) "Check interval must be positive" in
     ret true)
    (fun e =>
       match e with
       | AssertionError _ =>
           let* _ := log ERROR ("Configuration validation failed: " +:+ exn_str e) in
           ret false
       | _ => raise e
       end).

(** ** youtube_service.py *)

(** A video as [get_channel_videos] builds it: the dictionary with keys
    ['id'], ['title'], ['channel_title'] and ['published_at']. *)
Record video : Type := Video {
  video_id : string;
  title : string;
  channel_title : string;
  published_at : string
}.

Global Instance video_eq_dec : EqDecision video.
Proof. solve_decision. Defined.

(** The client built by [build('youtube', 'v3', ...)]: what the provider
    answers to the two requests the code sends. *)
Record YouTube : Type := MkYouTube {
  channels_list : string -> reply channel_response;
  playlistItems_list : string -> Z -> option string -> reply playlist_response
}.

(** [request.execute()]: the exchange is recorded, the answer returned or
    the exception raised. *)
Definition execute {A} (record : reply A -> event) (r : reply A) : Eff A :=
  match r with
  | Answer a => (Ret a, [record r])
  | Fails e => (Raise e, [record r])
  end.

(** [d[key]] on a field that may be missing. *)
Definition getitem {A} (key : string) (field : option A) : Eff A :=
  match field with
  | Some a => ret a
  | None => raise (KeyError key)
  end.

Definition video_of_item (s : snippet) : video :=
  Video (videoId s) (snippet_title s) (channelTitle s) (publishedAt s).

(** [for item in playlist_response['items']: videos.append(...)]: the
    videos appended, in order. *)
Fixpoint read_items (its : list (option snippet)) : Eff (list video) :=
  match its with
  | [] => ret []
  | item :: rest =>
      let* s := getitem "snippet" item in
      let* vs := read_items rest in
      ret (video_of_item s :: vs)
  end.

(** Truth value of [next_page_token]: [None] and the empty string are
    false. *)
Definition token_truthy (tok : option string) : bool :=
  match tok with
  | Some s => Py.truthy s
  | None => false
  end.

Definition len {A} (l : list A) : Z := Z.of_nat (length l).

(** The [while len(videos) < max_results] loop; one unit of fuel per
    iteration. *)
Fixpoint fetch_pages (fuel : nat) (youtube : YouTube) (uploads_playlist_id : string)
    (max_results : Z) (videos : list video) (next_page_token : option string)
    {struct fuel} : Eff (list video) :=
  if negb (len videos <? max_results) then ret videos
  else
    match fuel with
    | O => (OutOfFuel, [])
    | S fuel' =>
        let maxResults := Z.min 50 (max_results - len videos) in
        let* playlist_response :=
          execute (PlaylistItemsList uploads_playlist_id maxResults next_page_token)
            (playlistItems_list youtube uploads_playlist_id maxResults next_page_token) in
        let* its := getitem "items" (items playlist_response) in
        let* new := read_items its in
        let videos := videos ++ new in
        let next_page_token := nextPageToken playlist_response in
        if negb (token_truthy next_page_token) then ret videos
        else fetch_pages fuel' youtube uploads_playlist_id max_results videos
               next_page_token
    end.

Definition get_channel_videos (fuel : nat) (youtube : YouTube) (channel_id : string)
    (max_results : Z) : Eff (list video) :=
  try_except
    (let* channel_response :=
       execute (ChannelsList channel_id) (channels_list youtube channel_id) in
     let* its := getitem "items" channel_response in
     match its with
     | [] =>
         let* _ := log ERROR ("Channel " +:+ channel_id +:+ " not found") in
         ret []
     | first :: _ =>
         let* uploads_playlist_id := getitem "uploads" first in
         let* videos :=
           fetch_pages fuel youtube uploads_playlist_id max_results [] None in
         let* _ := log INFO ("Retrieved " +:+ pretty (length videos)
                             +:+ " videos from channel " +:+ channel_id) in
         ret videos
     end)
    (fun e =>
       match e with
       | HttpError _ =>
           let* _ := log ERROR ("YouTube API error: " +:+ exn_str e) in
           ret []
       | _ =>
           let* _ := log ERROR ("Error fetching videos from channel " +:+ channel_id
                                +:+ ": " +:+ exn_str e) in
           ret []
       end).

(** ** email_service.py *)

Record EmailService : Type := MkEmailService {
  sg : Mail -> reply Z;
  es_sender_email : string;
  es_recipient_email : string
}.

Definition send_email (self : EmailService) (subject body : string) : Eff bool :=
  try_except
    (let message :=
       MkMail (es_sender_email self) (es_recipient_email self) subject "text/plain" body in
     let* status_code := execute (SendGridSend message) (sg self message) in
     if status_code =? 202 then
       let* _ := log INFO ("Email sent successfully to " +:+ es_recipient_email self) in
       ret true
     else
       let* _ := log ERROR ("Failed to send email. Status code: " +:+ pretty status_code) in
       ret false)
    (fun e =>
       let* _ := log ERROR ("Error sending email: " +:+ exn_str e) in
       ret false).

(** ** sermon_emailer.py *)

(** [datetime.now().date()] *)
Record date : Type := MkDate { year : Z; month : Z; day : Z }.

Global Instance date_eq_dec : EqDecision date.
Proof. solve_decision. Defined.

(** The [SermonEmailer] object: its configuration and the two fields
    tracking the last sermon sent.  Its two service clients are rebuilt
    from the configuration and the [World] of each call. *)
Record SermonEmailer : Type := MkSermonEmailer {
  config : Config;
  last_sermon_date : option date;
  last_sermon_id : option string
}.

(** What the surroundings supply during one call of a method: the local
    date, the answers of the two providers, and the draw of
    [random.choice]. *)
Record World : Type := MkWorld {
  today : date;
  youtube : YouTube;
  sendgrid : Mail -> reply Z;
  draw : nat
}.

(** A method of [SermonEmailer]: reads and writes the object, logs, may
    raise.  Assignments made before an exception persist. *)
Definition Meth (A : Type) : Type := SermonEmailer -> Eff A * SermonEmailer.

Definition lift {A} (m : Eff A) : Meth A := fun self => (m, self).

Definition mbind {A B} (m : Meth A) (k : A -> Meth B) : Meth B := fun self =>
  match m self with
  | ((Ret a, t), self') =>
      let '((r, t'), self'') := k a self' in ((r, t ++ t'), self'')
  | ((Raise e, t), self') => ((Raise e, t), self')
  | ((OutOfFuel, t), self') => ((OutOfFuel, t), self')
  end.

Definition mtry {A} (m : Meth A) (h : exn -> Meth A) : Meth A := fun self =>
  match m self with
  | ((Raise e, t), self') =>
      let '((r, t'), self'') := h e self' in ((r, t ++ t'), self'')
  | other => other
  end.

Definition get_self : Meth SermonEmailer := fun self => (ret self, self).

Definition set_last_sermon_id (i : string) : Meth unit := fun self =>
  (ret tt, MkSermonEmailer (config self) (last_sermon_date self) (Some i)).

Definition set_last_sermon_date (d : date) : Meth unit := fun self =>
  (ret tt, MkSermonEmailer (config self) (Some d) (last_sermon_id self)).

Notation "'let!' x ':=' m 'in' k" := (mbind m (fun x => k))
  (at level 10, x pattern, m at level 100, k at level 200).

(** [SermonEmailer.__init__] *)
Definition SermonEmailer_init (env : environ) : Eff SermonEmailer :=
  let* config := Config_init env in
  ret (MkSermonEmailer config None None).

(** The [for channel_id in ...: all_videos.extend(...)] loop. *)
Fixpoint fetch_all (fuel : nat) (yt : YouTube) (channel_ids : list string)
    (all_videos : list video) : Eff (list video) :=
  match channel_ids with
  | [] => ret all_videos
  | channel_id :: rest =>
      let* videos := get_channel_videos fuel yt channel_id 50 in
      fetch_all fuel yt rest (all_videos ++ videos)
  end.

(** [random.choice(seq)] with the draw [d]. *)
Definition choice {A} (d : nat) (seq : list A) : Eff A :=
  match seq !! (d mod length seq)%nat with
  | Some x => ret x
  | None => raise (IndexError "Cannot choose from an empty sequence")
  end.

Definition watch_url (i : string) : string :=
  "https://www.youtube.com/watch?v=" +:+ i.

(** The dictionary [get_random_sermon] returns. *)
Definition sermon_of (selected_video : video) : gmap string string :=
  <["title" := title selected_video]>
    (<["url" := watch_url (video_id selected_video)]>
       (<["channel_title" := channel_title selected_video]> ∅)).

(** [[v for v in all_videos if v['id'] != last_sermon_id]] *)
Definition available (last : option string) (all_videos : list video) : list video :=
  filter (fun v => Some (video_id v) <> last) all_videos.

Definition get_random_sermon (fuel : nat) (w : World) : Meth (option (gmap string string)) :=
  mtry
    (let! self := get_self in
     let! all_videos :=
       lift (fetch_all fuel (youtube w) (youtube_channel_ids (config self)) []) in
     if negb (nonempty all_videos) then
       let! _ := lift (log ERROR "No sermons found in configured channels") in
       lift (ret None)
     else
       let available_videos := available (last_sermon_id self) all_videos in
       let available_videos :=
         if negb (nonempty available_videos) then all_videos else available_videos in
       let! selected_video := lift (choice (draw w) available_videos) in
       let! _ := set_last_sermon_id (video_id selected_video) in
       lift (ret (Some (sermon_of selected_video))))
    (fun e =>
       let! _ := lift (log ERROR ("Error fetching random sermon: " +:+ exn_str e)) in
       lift (ret None)).

Definition subject : string :=
  "మీ రోజువారీ తెలుగు బైబిల్ ప్రసంగం (Your Daily Telugu Bible Sermon)".

Definition body (sermon_title sermon_channel_title sermon_url : string) : string :=
  "
నమస్కారం (Greetings),

ఈ రోజు మీకోసం ఎంచుకోబడిన ప్రసంగం ఇక్కడ ఉంది (Here is the sermon selected for you today):

ప్రసంగం పేరు (Sermon Title): " +:+ sermon_title +:+ "
ప్రసంగకర్త (Speaker): " +:+ sermon_channel_title +:+ "
వినడానికి/చూడటానికి లింక్ (Link to listen/watch): " +:+ sermon_url +:+ "

దేవుడు మిమ్మును దీవించును గాక (May God bless you),
మీ తెలుగు ప్రసంగాల సహాయకుడు (Your Telugu Sermons Assistant)
".

(** Truth value of what [get_random_sermon] returned: [None] and the
    empty dictionary are false. *)
Definition sermon_truthy (sermon : option (gmap string string)) : bool :=
  match sermon with
  | Some d => negb (bool_decide (d = ∅))
  | None => false
  end.

Definition email_service (self : SermonEmailer) (w : World) : EmailService :=
  MkEmailService (sendgrid w) (sender_email (config self)) (recipient_email (config self)).

Definition send_daily_sermon (fuel : nat) (w : World) : Meth unit :=
  mtry
    (let! self := get_self in
     if bool_decide (last_sermon_date self = Some (today w)) then
       lift (log INFO "Sermon already sent today")
     else
       let! sermon := get_random_sermon fuel w in
       if negb (sermon_truthy sermon) then
         lift (log ERROR "Failed to get sermon")
       else
         let sermon := default ∅ sermon in
         let! sermon_title := lift (getitem "title" (sermon !! "title")) in
         let! sermon_channel_title :=
           lift (getitem "channel_title" (sermon !! "channel_title")) in
         let! sermon_url := lift (getitem "url" (sermon !! "url")) in
         let! self := get_self in
         let! success :=
           lift (send_email (email_service self w) subject
                   (body sermon_title sermon_channel_title sermon_url)) in
         if success then
           let! _ := set_last_sermon_date (today w) in
           lift (log INFO ("Successfully sent sermon: " +:+ sermon_title))
         else
           lift (log ERROR "Failed to send sermon email"))
    (fun e => lift (log ERROR ("Error in send_daily_sermon: " +:+ exn_str e))).

(** The [while True] loop of [run], over the passes it has made so far.
    In each pass [schedule.run_pending()] runs the job when the scheduler
    finds it due, then the loop sleeps; the loop does not return. *)
Fixpoint polling (passes : list (bool * (nat * World))) : Meth unit :=
  match passes with
  | [] => fun self => ((OutOfFuel, []), self)
  | (due, (fuel, w)) :: rest =>
      let! _ := (if due : bool then send_daily_sermon fuel w else lift (ret tt)) in
      polling rest
  end.

(** [SermonEmailer.run]: the job is registered with the scheduler, run
    once at once, and then polled for. *)
Definition run (first : nat * World) (passes : list (bool * (nat * World))) : Meth unit :=
  let! _ := lift (log INFO "Starting Sermon Emailer service") in
  let! _ := send_daily_sermon (fst first) (snd first) in
  polling passes.

(** The [__main__] block: the object after the passes made, if it was
    built at all. *)
Definition main (env : environ) (first : nat * World)
    (passes : list (bool * (nat * World))) : Eff unit * option SermonEmailer :=
  match SermonEmailer_init env with
  | (Ret sermon_emailer, t) =>
      let '(r, sermon_emailer') := run first passes sermon_emailer in
      let '(r', t') :=
        try_except r (fun e =>
          log ERROR ("Sermon Emailer service stopped due to error: " +:+ exn_str e)) in
      ((r', t ++ t'), Some sermon_emailer')
  | (Raise e, t) =>
      ((Ret tt,
        t ++ [Log ERROR ("Sermon Emailer service stopped due to error: " +:+ exn_str e)]),
       None)
  | (OutOfFuel, t) => ((OutOfFuel, t), None)
  end.

(** ** youtube_service.py: video details *)

(** An item of a [videos().list] response as the code reads it: ['id'] and
    the three dictionaries ['snippet'], ['contentDetails'] and
    ['statistics'], each of which may be missing. *)
Record video_item : Type := VideoItem {
  item_id : option string;
  item_snippet : option (gmap string string);
  item_contentDetails : option (gmap string string);
  item_statistics : option (gmap string string)
}.

(** A [videos().list] response: ['items'], absent when the response is
    malformed. *)
Definition videos_response : Type := option (list video_item).

(** [request.execute()] for an exchange the trace does not record. *)
Definition call {A} (r : reply A) : Eff A :=
  match r with
  | Answer a => ret a
  | Fails e => raise e
  end.

(** [YouTubeService.get_video_details]; [videos_list] is what the provider
    answers to [videos().list(part=..., id=video_id)].  Its trace holds the
    log records only. *)
Definition get_video_details (videos_list : string -> reply videos_response)
    (video_id : string) : Eff (gmap string string) :=
  try_except
    (let* response := call (videos_list video_id) in
     let* its := getitem "items" response in
     match its with
     | [] =>
         let* _ := log ERROR ("Video " +:+ video_id +:+ " not found") in
         ret ∅
     | video :: _ =>
         let* id_ := getitem "id" (item_id video) in
         let* snippet := getitem "snippet" (item_snippet video) in
         let* title_ := getitem "title" (snippet !! "title") in
         let* snippet := getitem "snippet" (item_snippet video) in
         let* description := getitem "description" (snippet !! "description") in
         let* snippet := getitem "snippet" (item_snippet video) in
         let* channel_title_ := getitem "channelTitle" (snippet !! "channelTitle") in
         let* snippet := getitem "snippet" (item_snippet video) in
         let* published_at_ := getitem "publishedAt" (snippet !! "publishedAt") in
         let* contentDetails := getitem "contentDetails" (item_contentDetails video) in
         let* duration := getitem "duration" (contentDetails !! "duration") in
         let* statistics := getitem "statistics" (item_statistics video) in
         let* view_count := getitem "viewCount" (statistics !! "viewCount") in
         let* statistics := getitem "statistics" (item_statistics video) in
         let like_count := default "0" (statistics !! "likeCount") in
         ret (<["id" := id_]>
               (<["title" := title_]>
                 (<["description" := description]>
                   (<["channel_title" := channel_title_]>
                     (<["published_at" := published_at_]>
                       (<["duration" := duration]>
                         (<["view_count" := view_count]>
                           (<["like_count" := like_count]> ∅))))))))
     end)
    (fun e =>
       match e with
       | HttpError _ =>
           let* _ := log ERROR ("YouTube API error: " +:+ exn_str e) in
           ret ∅
       | _ =>
           let* _ := log ERROR ("Error fetching video details for " +:+ video_id
                                +:+ ": " +:+ exn_str e) in
           ret ∅
       end).

(** ** email_service.py: HTML messages *)

(** The message [send_html_email] hands to SendGrid: the addresses, the
    subject, and the contents assigned to [message.content], in the order
    of the assignments, each with its MIME type. *)
Record HtmlMail : Type := MkHtmlMail {
  html_from_email : string;
  html_to_emails : string;
  html_subject : string;
  assigned_contents : list (string * string)
}.

(** Truth value of [plain_text_body]: [None] and the empty string are
    false. *)
Definition body_truthy (plain_text_body : option string) : bool :=
  match plain_text_body with
  | Some s => Py.truthy s
  | None => false
  end.

(** [EmailService.send_html_email]; [sg_html] is what SendGrid answers to
    the message.  Its trace holds the log records only. *)
Definition send_html_email (sg_html : HtmlMail -> reply Z) (self : EmailService)
    (subject html_body : string) (plain_text_body : option string) : Eff bool :=
  try_except
    (let contents := [("text/html", html_body)] in
     let contents :=
       if body_truthy plain_text_body then
         contents ++ [("text/plain", default "" plain_text_body)]
       else contents in
     let message :=
       MkHtmlMail (es_sender_email self) (es_recipient_email self) subject contents in
     let* status_code := call (sg_html message) in
     if status_code =? 202 then
       let* _ := log INFO ("HTML email sent successfully to "
                           +:+ es_recipient_email self) in
       ret true
     else
       let* _ := log ERROR ("Failed to send HTML email. Status code: "
                            +:+ pretty status_code) in
       ret false)
    (fun e =>
       let* _ := log ERROR ("Error sending HTML email: " +:+ exn_str e) in
       ret false).

(** * Observations on runs *)

(** The warnings the format check of [_get_channel_ids] logs. *)
Definition format_warnings (channel_ids : list string) : trace :=
  concat ((fun cid =>
    if channel_id_format cid then []
    else [Log WARNING ("Channel ID " +:+ cid +:+ " may not be in the correct format")])
    <$> channel_ids).

(** The names [Config.__init__] requires. *)
Definition required_keys : list string :=
  ["YOUTUBE_API_KEY"; "YOUTUBE_CHANNEL_IDS"; "SENDGRID_API_KEY"; "SENDER_EMAIL";
   "RECIPIENT_EMAIL"].

(** A required value is absent: unset, or set to the empty string. *)
Definition absent (env : environ) (key : string) : Prop :=
  env !! key = None \/ env !! key = Some "".

(** The scheduling loop was started. *)
Definition loop_started (t : trace) : Prop :=
  Log INFO "Starting Sermon Emailer service" ∈ t.

(** An item all of whose fields can be read. *)
Definition well_formed_item (item : option snippet) : bool :=
  match item with Some _ => true | None => false end.

Definition well_formed_items (its : list (option snippet)) : bool :=
  forallb well_formed_item its.

(** A provider-level failure, as the exchange shows it: the call raised,
    the channel did not resolve (no item), or the response lacks what the
    code reads from it. *)
Definition failed_exchange (e : event) : bool :=
  match e with
  | ChannelsList _ (Fails _) => true
  | ChannelsList _ (Answer None) => true
  | ChannelsList _ (Answer (Some [])) => true
  | ChannelsList _ (Answer (Some (None :: _))) => true
  | PlaylistItemsList _ _ _ (Fails _) => true
  | PlaylistItemsList _ _ _ (Answer resp) =>
      match items resp with
      | None => true
      | Some its => negb (well_formed_items its)
      end
  | _ => false
  end.

Definition is_page_request (e : event) : bool :=
  match e with PlaylistItemsList _ _ _ _ => true | _ => false end.

(** The number of [playlistItems] page requests issued. *)
Definition page_requests (t : trace) : nat :=
  length (List.filter is_page_request t).

(** A page answered without a (non-empty) next-page token. *)
Definition last_page (e : event) : bool :=
  match e with
  | PlaylistItemsList _ _ _ (Answer resp) => negb (token_truthy (nextPageToken resp))
  | _ => false
  end.

(** No page request follows a page answered without next-page token. *)
Fixpoint stops_at_last_page (t : trace) : bool :=
  match t with
  | [] => true
  | e :: t' =>
      (if last_page e then (page_requests t' =? 0)%nat else true)
      && stops_at_last_page t'
  end.

(** The provider returns no more items than the (positive) page size asked
    for. *)
Definition honours_page_size (yt : YouTube) : Prop :=
  forall pl n tok resp its,
    0 < n ->
    playlistItems_list yt pl n tok = Answer resp ->
    items resp = Some its -> len its <= n.

(** A page that announces a next page holds at least one item. *)
Definition pages_make_progress (yt : YouTube) : Prop :=
  forall pl n tok resp its,
    0 < n ->
    playlistItems_list yt pl n tok = Answer resp ->
    items resp = Some its ->
    token_truthy (nextPageToken resp) = true -> its <> [].

(** The provider's pages hold at most [n] items. *)
Definition pages_at_most (n : Z) (yt : YouTube) : Prop :=
  forall pl k tok resp its,
    playlistItems_list yt pl k tok = Answer resp ->
    items resp = Some its -> len its <= n.

(** The aggregate pool of a call: what the per-channel fetches return,
    concatenated. *)
Definition pool_of (fuel : nat) (w : World) (self : SermonEmailer) : Eff (list video) :=
  fetch_all fuel (youtube w) (youtube_channel_ids (config self)) [].

(** The videos [random.choice] draws from: those left by the exclusion, or
    the whole pool when the exclusion leaves none. *)
Definition candidates (last : option string) (pool : list video) : list video :=
  if nonempty (available last pool) then available last pool else pool.

(** The object after [get_random_sermon] selected the video [v]. *)
Definition selected (self : SermonEmailer) (v : video) : SermonEmailer :=
  MkSermonEmailer (config self) (last_sermon_date self) (Some (video_id v)).

(** The message [send_daily_sermon] dispatches for the video [v]. *)
Definition mail_for (self : SermonEmailer) (v : video) : Mail :=
  MkMail (sender_email (config self)) (recipient_email (config self)) subject
    "text/plain" (body (title v) (channel_title v) (watch_url (video_id v))).

Definition is_dispatch (e : event) : bool :=
  match e with SendGridSend _ _ => true | _ => false end.

(** A dispatch the email provider accepted (status 202). *)
Definition accepted_dispatch (e : event) : bool :=
  match e with
  | SendGridSend _ (Answer status_code) => status_code =? 202
  | _ => false
  end.

Definition dispatch_attempts (t : trace) : nat :=
  length (List.filter is_dispatch t).

Definition successful_dispatches (t : trace) : nat :=
  length (List.filter accepted_dispatch t).

Definition is_request (e : event) : bool :=
  match e with Log _ _ => false | _ => true end.

(** The number of requests sent to either provider. *)
Definition requests (t : trace) : nat :=
  length (List.filter is_request t).

(** The pass [p] of the polling loop happens on the day [d]. *)
Definition on_day (d : date) (p : bool * (nat * World)) : Prop :=
  today (snd (snd p)) = d.

(** * Sample inputs *)

Definition snippet_a : snippet := Snippet "a" "Title a" "Channel 1" "2024-01-01T00:00:00Z".
Definition snippet_b : snippet := Snippet "b" "Title b" "Channel 1" "2024-01-02T00:00:00Z".
Definition video_a : video := video_of_item snippet_a.
Definition video_b : video := video_of_item snippet_b.

Definition resolve_UC1 (channel_id : string) : reply channel_response :=
  if decide (channel_id = "UC1") then Answer (Some [Some "UU1"])
  else Answer (Some []).

(** A channel with a single video: one page, no next-page token. *)
Definition yt_single : YouTube :=
  MkYouTube resolve_UC1
    (fun _ _ _ => Answer (PlaylistResponse (Some [Some snippet_a]) None)).

(** A channel with two videos on one page. *)
Definition yt_two : YouTube :=
  MkYouTube resolve_UC1
    (fun _ _ _ => Answer (PlaylistResponse (Some [Some snippet_a; Some snippet_b]) None)).

(** A provider that answers every page request with a quota error. *)
Definition yt_quota : YouTube :=
  MkYouTube resolve_UC1 (fun _ _ _ => Fails (HttpError "quotaExceeded")).

(** A provider that ignores the page size asked for: two pages of 50. *)
Definition yt_greedy : YouTube :=
  MkYouTube resolve_UC1
    (fun _ _ tok =>
       match tok with
       | None => Answer (PlaylistResponse (Some (replicate 50 (Some snippet_a))) (Some "p2"))
       | Some _ => Answer (PlaylistResponse (Some (replicate 50 (Some snippet_b))) None)
       end).

(** A channel with many videos behind a provider that honours the page
    size, capped at 50: a first page with a next-page token, then a last
    one. *)
Definition yt_paged : YouTube :=
  MkYouTube resolve_UC1
    (fun _ n tok =>
       let k := Z.to_nat (Z.min n 50) in
       match tok with
       | None => Answer (PlaylistResponse (Some (replicate k (Some snippet_a))) (Some "p2"))
       | Some _ => Answer (PlaylistResponse (Some (replicate k (Some snippet_b))) None)
       end).

Definition config_UC1 : Config :=
  MkConfig "key" ["UC1"] "sendgrid-key" "from@example.org" "to@example.org" 24
    "INFO" "logs/sermon_emailer.log".

Definition day1 : date := MkDate 2024 1 1.

(** The email provider accepts (202) or refuses (500) every message. *)
Definition sendgrid_accepts : Mail -> reply Z := fun _ => Answer 202.
Definition sendgrid_refuses : Mail -> reply Z := fun _ => Answer 500.

Definition world_two : World := MkWorld day1 yt_two sendgrid_accepts 0.
Definition world_single : World := MkWorld day1 yt_single sendgrid_accepts 0.
Definition world_refused : World := MkWorld day1 yt_two sendgrid_refuses 0.

(** A freshly built object, and one that last sent video ["a"]. *)
Definition emailer_new : SermonEmailer := MkSermonEmailer config_UC1 None None.
Definition emailer_sent_a : SermonEmailer := MkSermonEmailer config_UC1 None (Some "a").

(** A complete environment whose sender address has no at-sign. *)
Definition env_sender_without_at : environ :=
  <["YOUTUBE_API_KEY" := "key"]>
    (<["YOUTUBE_CHANNEL_IDS" := "UC1"]>
       (<["SENDGRID_API_KEY" := "sendgrid-key"]>
          (<["SENDER_EMAIL" := "nobody"]>
             (<["RECIPIENT_EMAIL" := "to@example.org"]> ∅)))).

(** * Further observations *)

(** The message of the [ValueError] raised for an absent required value. *)
Definition not_set (key : string) : string :=
  "Required environment variable " +:+ key +:+ " is not set".

(** [absent], decided. *)
Definition absentb (env : environ) (key : string) : bool :=
  match env !! key with
  | None => true
  | Some v => negb (Py.truthy v)
  end.

(** The first required name, in the order [Config.__init__] reads them,
    whose value is absent. *)
Definition first_absent (env : environ) : option string :=
  List.find (absentb env) required_keys.

(** The conditions [Config.validate] asserts, in its order. *)
Definition validations (cfg : Config) : list (bool * string) :=
  [(Py.truthy (youtube_api_key cfg), "YouTube API key is required");
   (nonempty (youtube_channel_ids cfg), "At least one YouTube channel ID is required");
   (Py.truthy (sendgrid_api_key cfg), "SendGrid API key is required");
   (Py.truthy (sender_email cfg), "Sender email is required");
   (Py.truthy (recipient_email cfg), "Recipient email is required");
   (Py.contains "@" (sender_email cfg), "Invalid sender email format");
   (Py.contains "@" (recipient_email cfg), "Invalid recipient email format");
   (0 <? check_interval_hours cfg, "Check interval must be positive")].

(** The message of the first assertion that fails, if any. *)
Definition first_failure (cfg : Config) : option string :=
  snd <$> List.find (fun c => negb (fst c)) (validations cfg).

(** A page request asks for at least one item, at most 50, and no more
    than [max]. *)
Definition page_size_ok (max : Z) (e : event) : bool :=
  match e with
  | PlaylistItemsList _ n _ _ => (1 <=? n) && (n <=? 50) && (n <=? max)
  | _ => true
  end.

(** What the provider announced as the next page. *)
Definition announced (r : reply playlist_response) : option string :=
  match r with
  | Answer resp => nextPageToken resp
  | Fails _ => None
  end.

(** Every page request of the trace names the playlist [pl], and carries
    the token [tok] if it is the first, the token the preceding answer
    announced otherwise. *)
Fixpoint follows_tokens (pl : string) (tok : option string) (t : trace) : bool :=
  match t with
  | [] => true
  | PlaylistItemsList pl' _ tok' r :: t' =>
      bool_decide (pl' = pl) && bool_decide (tok' = tok)
      && follows_tokens pl (announced r) t'
  | _ :: t' => follows_tokens pl tok t'
  end.

(** The videos of the pages answered, in the order of the answers. *)
Fixpoint answered_videos (t : trace) : list video :=
  match t with
  | [] => []
  | PlaylistItemsList _ _ _ (Answer resp) :: t' =>
      match items resp with
      | Some its => omap (fmap video_of_item) its ++ answered_videos t'
      | None => answered_videos t'
      end
  | _ :: t' => answered_videos t'
  end.

(** What a channel contributes to the pool: the videos its fetch returns. *)
Definition fetched (fuel : nat) (yt : YouTube) (channel_id : string) : list video :=
  match fst (get_channel_videos fuel yt channel_id 50) with
  | Ret vs => vs
  | _ => []
  end.

Definition world_paged : World := MkWorld day1 yt_paged sendgrid_accepts 0.

Definition world_quota : World := MkWorld day1 yt_quota sendgrid_accepts 0.

(** The keys of the dictionary [get_video_details] builds. *)
Definition detail_keys : gset string :=
  {[ "id"; "title"; "description"; "channel_title"; "published_at"; "duration";
     "view_count"; "like_count" ]}.

(** A provider that knows one video, whose statistics carry no like
    count. *)
Definition videos_one (video_id : string) : reply videos_response :=
  if decide (video_id = "a") then
    Answer (Some [VideoItem (Some "a")
      (Some (<["title" := "Title a"]> (<["description" := "About a"]>
        (<["channelTitle" := "Channel 1"]>
          (<["publishedAt" := "2024-01-01T00:00:00Z"]> ∅)))))
      (Some (<["duration" := "PT5M"]> ∅))
      (Some (<["viewCount" := "12"]> ∅))])
  else Answer (Some []).

(** The number of occurrences of [c] in [s]. *)
Fixpoint count_char (c : ascii) (s : string) : nat :=
  match s with
  | EmptyString => 0
  | String d s' => (if decide (d = c) then 1 else 0) + count_char c s'
  end.

Definition first_char (s : string) : option ascii :=
  match s with
  | String c _ => Some c
  | EmptyString => None
  end.

Definition last_char (s : string) : option ascii := first_char (String.rev s).

(** Neither the first nor the last character of [s] is white space. *)
Definition unpadded (s : string) : bool :=
  match first_char s with Some c => negb (Py.isspace c) | None => true end
  && match last_char s with Some c => negb (Py.isspace c) | None => true end.

(** The world [w] with the draw of [random.choice] replaced. *)
Definition with_draw (w : World) (d : nat) : World :=
  MkWorld (today w) (youtube w) (sendgrid w) d.

(** * Properties *)

(** ** The effect layer *)

Lemma bind_ret_l {A B} (a : A) (t : trace) (k : A -> Eff B) :
  bind (Ret a, t) k = (fst (k a), t ++ snd (k a)).
Proof. simpl. by destruct (k a). Qed.

Lemma ret_bind {A B} (a : A) (k : A -> Eff B) : bind (ret a) k = k a.
Proof. unfold ret; simpl. by destruct (k a). Qed.

Lemma log_bind {B} lvl msg (k : unit -> Eff B) :
  bind (log lvl msg) k = (fst (k tt), Log lvl msg :: snd (k tt)).
Proof. unfold log; simpl. by destruct (k tt). Qed.

Lemma raise_bind {A B} (e : exn) (k : A -> Eff B) : bind (raise e) k = raise e.
Proof. done. Qed.

Lemma for_each_trace {A} (l : list A) (body : A -> Eff unit) (out : A -> trace) :
  (forall x, body x = (Ret tt, out x)) ->
  for_each l body = (Ret tt, concat (out <$> l)).
Proof.
  intros Hbody. induction l as [| x l IH]; [done |].
  simpl. rewrite Hbody, IH. done.
Qed.

(** ** Configuration *)

Lemma split_go_nonempty sep cur s : Py.split_go sep cur s <> [].
Proof.
  revert cur. induction s as [| c s IH]; intros cur; simpl; [done |].
  destruct (decide (c = sep)); [done | apply IH].
Qed.

Lemma get_channel_ids_set env v :
  env !! "YOUTUBE_CHANNEL_IDS" = Some v -> v <> "" ->
  _get_channel_ids env =
    (Ret (Py.strip <$> Py.split "," v), format_warnings (Py.strip <$> Py.split "," v)).
Proof.
  intros Hv Hne. unfold _get_channel_ids, _get_required_env. rewrite Hv.
  destruct v as [| c v]; [done |]. cbn [Py.truthy negb]. rewrite ret_bind.
  destruct (Py.strip <$> Py.split "," (String c v)) as [| i ids] eqn:Hids.
  { apply fmap_nil_inv in Hids. by apply split_go_nonempty in Hids. }
  cbn [nonempty negb].
  erewrite (for_each_trace _ _ (fun cid => if channel_id_format cid then []
    else [Log WARNING ("Channel ID " +:+ cid +:+ " may not be in the correct format")])).
  - rewrite bind_ret_l. cbn [fst snd ret]. by rewrite app_nil_r.
  - intros x. by destruct (channel_id_format x).
Qed.

(** C10. For every [YOUTUBE_CHANNEL_IDS] value that passes the
    required-variable check (any non-empty string), [_get_channel_ids]
    returns a list with at least one element, so its "No YouTube channel IDs
    provided" branch is never taken; the only thing the format check does
    is log warnings.  The value [","] yields two empty identifiers, each
    with a warning, and is accepted. *)
Theorem get_channel_ids_never_rejects (env : environ) (v : string) :
  env !! "YOUTUBE_CHANNEL_IDS" = Some v -> v <> "" ->
  exists channel_ids,
    _get_channel_ids env = (Ret channel_ids, format_warnings channel_ids) /\
    (1 <= length channel_ids)%nat /\
    fst (_get_channel_ids env) <> Raise (ValueError "No YouTube channel IDs provided") /\
    (v = "," ->
     channel_ids = [""; ""] /\
     format_warnings channel_ids =
       [Log WARNING "Channel ID  may not be in the correct format";
        Log WARNING "Channel ID  may not be in the correct format"]).
Proof.
  intros Hv Hne. exists (Py.strip <$> Py.split "," v).
  rewrite (get_channel_ids_set env v Hv Hne).
  split; [done |]. split; [| split; [done |]].
  - rewrite length_fmap. unfold Py.split.
    pose proof (split_go_nonempty "," "" v) as Hs.
    destruct (Py.split_go "," "" v); [done | simpl; lia].
  - intros ->. split; reflexivity.
Qed.

Lemma get_channel_ids_never_rejects_witness :
  exists channel_ids,
    _get_channel_ids (<["YOUTUBE_CHANNEL_IDS" := ","]> ∅) =
      (Ret channel_ids, format_warnings channel_ids) /\
    channel_ids = [""; ""].
Proof.
  destruct (get_channel_ids_never_rejects (<["YOUTUBE_CHANNEL_IDS" := ","]> ∅) ",")
    as (ids & Hrun & _ & _ & Hdeg).
  - reflexivity.
  - discriminate.
  - exists ids. split; [exact Hrun | apply Hdeg; reflexivity].
Defined.

(** ** Channel video source *)

Lemma read_items_eq its :
  read_items its =
    (if well_formed_items its then Ret (omap (fmap video_of_item) its)
     else Raise (KeyError "snippet"), []).
Proof.
  induction its as [| [s |] its IH]; cbn [read_items getitem]; [done | | done].
  rewrite ret_bind, IH.
  cbn [well_formed_items forallb well_formed_item andb omap list_omap fmap
       option_fmap option_map].
  fold (well_formed_items its).
  destruct (well_formed_items its); reflexivity.
Qed.

Lemma well_formed_items_length its :
  well_formed_items its = true ->
  length (omap (fmap video_of_item) its) = length its.
Proof.
  induction its as [| [s |] its IH]; intros H; simpl in *; [done | | done].
  f_equal. by apply IH.
Qed.

(** One iteration of the pagination loop. *)
Lemma fetch_pages_step fuel yt pl max videos tok :
  len videos < max ->
  let n := Z.min 50 (max - len videos) in
  let asked := playlistItems_list yt pl n tok in
  let ev := PlaylistItemsList pl n tok asked in
  fetch_pages (S fuel) yt pl max videos tok =
    match asked with
    | Fails e => (Raise e, [ev])
    | Answer resp =>
        match items resp with
        | None => (Raise (KeyError "items"), [ev])
        | Some its =>
            if well_formed_items its then
              let videos' := videos ++ omap (fmap video_of_item) its in
              if token_truthy (nextPageToken resp) then
                (fst (fetch_pages fuel yt pl max videos' (nextPageToken resp)),
                 ev :: snd (fetch_pages fuel yt pl max videos' (nextPageToken resp)))
              else (Ret videos', [ev])
            else (Raise (KeyError "snippet"), [ev])
        end
    end.
Proof.
  intros Hlt n asked ev. subst ev.
  cbn [fetch_pages]. apply Z.ltb_lt in Hlt as ->. cbn [negb].
  fold n. fold asked. destruct asked as [resp | e]; [| done].
  cbn [execute]. rewrite bind_ret_l.
  destruct (items resp) as [its |]; [| done].
  cbn [getitem]. rewrite ret_bind, read_items_eq.
  destruct (well_formed_items its); [| done].
  rewrite bind_ret_l. cbn [fst snd app].
  destruct (token_truthy (nextPageToken resp)); [| done].
  cbn [negb]. by destruct (fetch_pages _ _ _ _ _ _).
Qed.

Lemma fetch_pages_done fuel yt pl max videos tok :
  max <= len videos -> fetch_pages fuel yt pl max videos tok = (Ret videos, []).
Proof.
  intros Hge. destruct fuel; cbn [fetch_pages];
    (destruct (len videos <? max) eqn:Hlt; [apply Z.ltb_lt in Hlt; lia | done]).
Qed.

(** What the loop exchanges with the provider: page requests only, none
    after a page without next-page token, and a failed exchange exactly
    when the loop raises. *)
Lemma fetch_pages_trace fuel yt pl max videos tok :
  forallb is_page_request (snd (fetch_pages fuel yt pl max videos tok)) = true /\
  stops_at_last_page (snd (fetch_pages fuel yt pl max videos tok)) = true /\
  existsb failed_exchange (snd (fetch_pages fuel yt pl max videos tok)) =
    match fst (fetch_pages fuel yt pl max videos tok) with
    | Raise _ => true
    | _ => false
    end.
Proof.
  revert videos tok. induction fuel as [| fuel IH]; intros videos tok.
  - cbn [fetch_pages]. by destruct (len videos <? max).
  - destruct (Z.lt_ge_cases (len videos) max) as [Hlt | Hge];
      [| by rewrite fetch_pages_done].
    rewrite (fetch_pages_step fuel yt pl max videos tok Hlt). cbv zeta.
    destruct (playlistItems_list _ _ _ _) as [resp | e] eqn:Hasked; [| done].
    destruct (items resp) as [its |] eqn:Hits;
      [| cbn; rewrite Hits; by destruct (token_truthy _)].
    destruct (well_formed_items its) eqn:Hwf;
      [| cbn; rewrite Hits, Hwf; by destruct (token_truthy _)].
    destruct (token_truthy (nextPageToken resp)) eqn:Htok.
    + destruct (IH (videos ++ omap (fmap video_of_item) its) (nextPageToken resp))
        as (Hreq & Hstop & Hfail).
      cbn [fst snd forallb stops_at_last_page existsb is_page_request
           last_page failed_exchange andb orb].
      rewrite Hits, Hwf, Htok. cbn [negb orb andb]. done.
    + cbn. by rewrite Hits, Hwf, Htok.
Qed.

(** The fetch when the channel does not resolve to an uploads playlist. *)
Lemma get_channel_videos_unresolved fuel yt cid max :
  failed_exchange (ChannelsList cid (channels_list yt cid)) = true ->
  exists msg,
    get_channel_videos fuel yt cid max =
      (Ret [], [ChannelsList cid (channels_list yt cid); Log ERROR msg]).
Proof.
  unfold get_channel_videos.
  destruct (channels_list yt cid) as [[[| [pl |] rest] |] | e]; cbn; intros Hf;
    try discriminate; try (eexists; reflexivity).
  destruct e; eexists; reflexivity.
Qed.

(** The fetch when the channel resolves to the playlist [pl]. *)
Lemma get_channel_videos_resolved fuel yt cid max pl rest r t :
  channels_list yt cid = Answer (Some (Some pl :: rest)) ->
  fetch_pages fuel yt pl max [] None = (r, t) ->
  let ev := ChannelsList cid (Answer (Some (Some pl :: rest))) in
  match r with
  | Ret vs =>
      get_channel_videos fuel yt cid max =
        (Ret vs, ev :: t ++ [Log INFO ("Retrieved " +:+ pretty (length vs)
                                       +:+ " videos from channel " +:+ cid)])
  | Raise e =>
      exists msg,
        get_channel_videos fuel yt cid max = (Ret [], ev :: t ++ [Log ERROR msg])
  | OutOfFuel => get_channel_videos fuel yt cid max = (OutOfFuel, ev :: t)
  end.
Proof.
  intros Hch Hfetch ev. unfold get_channel_videos. rewrite Hch.
  cbn [execute]. rewrite bind_ret_l. cbn [getitem]. rewrite ret_bind.
  cbn [getitem]. rewrite ret_bind, Hfetch.
  destruct r as [vs | e |].
  - rewrite bind_ret_l, log_bind. cbn [fst snd ret try_except app].
    by rewrite ?app_nil_r.
  - cbn [bind fst snd app try_except].
    destruct e; cbn; rewrite ?app_nil_r; eexists; reflexivity.
  - cbn. by rewrite ?app_nil_r.
Qed.

(** The channel either fails to resolve or resolves to a playlist. *)
Lemma channels_list_cases yt cid :
  failed_exchange (ChannelsList cid (channels_list yt cid)) = true \/
  exists pl rest, channels_list yt cid = Answer (Some (Some pl :: rest)).
Proof.
  destruct (channels_list yt cid) as [[[| [pl |] rest] |] | e]; cbn; eauto.
Qed.

Lemma get_channel_videos_never_raises fuel yt cid max e :
  fst (get_channel_videos fuel yt cid max) <> Raise e.
Proof.
  destruct (channels_list_cases yt cid) as [Hf | (pl & rest & Hch)].
  - destruct (get_channel_videos_unresolved fuel yt cid max Hf) as [msg ->]. done.
  - destruct (fetch_pages fuel yt pl max [] None) as [r t] eqn:Hfetch.
    pose proof (get_channel_videos_resolved fuel yt cid max pl rest r t Hch Hfetch) as H.
    destruct r as [vs | e' |]; cbv zeta in H.
    + by rewrite H.
    + destruct H as [msg ->]. done.
    + by rewrite H.
Qed.

Lemma existsb_app_logs (f : event -> bool) (t : trace) lvl msg :
  f (Log lvl msg) = false -> existsb f (t ++ [Log lvl msg]) = existsb f t.
Proof. intros Hf. rewrite existsb_app. cbn. rewrite Hf. by rewrite !orb_false_r. Qed.

(** C9. Whenever an exchange with the provider fails during a channel video
    fetch (the channel identifier does not resolve, a call raises, or a
    response lacks what the code reads), [get_channel_videos] returns the
    empty list: it returns, and it raises nothing. *)
Theorem get_channel_videos_failure_is_empty fuel yt cid max :
  existsb failed_exchange (snd (get_channel_videos fuel yt cid max)) = true ->
  fst (get_channel_videos fuel yt cid max) = Ret [].
Proof.
  destruct (channels_list_cases yt cid) as [Hf | (pl & rest & Hch)].
  - destruct (get_channel_videos_unresolved fuel yt cid max Hf) as [msg ->]. done.
  - destruct (fetch_pages fuel yt pl max [] None) as [r t] eqn:Hfetch.
    pose proof (get_channel_videos_resolved fuel yt cid max pl rest r t Hch Hfetch) as H.
    destruct (fetch_pages_trace fuel yt pl max [] None) as (_ & _ & Hfail).
    rewrite Hfetch in Hfail. cbn [fst snd] in Hfail.
    destruct r as [vs | e' |]; cbv zeta in H.
    + rewrite H. cbn [fst snd existsb failed_exchange orb].
      rewrite existsb_app_logs by done. congruence.
    + destruct H as [msg ->]. done.
    + rewrite H. cbn [fst snd existsb failed_exchange orb]. congruence.
Qed.

Lemma get_channel_videos_failure_is_empty_witness :
  existsb failed_exchange (snd (get_channel_videos 3 yt_quota "UC1" 50)) = true /\
  fst (get_channel_videos 3 yt_quota "UC1" 50) = Ret [].
Proof.
  split; [reflexivity |].
  apply (get_channel_videos_failure_is_empty 3 yt_quota "UC1" 50). reflexivity.
Defined.

Lemma page_requests_app t1 t2 :
  page_requests (t1 ++ t2) = (page_requests t1 + page_requests t2)%nat.
Proof. unfold page_requests. by rewrite List.filter_app, length_app. Qed.

Lemma stops_at_last_page_app_log t lvl msg :
  stops_at_last_page (t ++ [Log lvl msg]) = stops_at_last_page t.
Proof.
  induction t as [| e t IH]; [done |].
  cbn [app stops_at_last_page]. rewrite IH, page_requests_app.
  by rewrite Nat.add_0_r.
Qed.

(** An iteration that enters the loop body issues a page request. *)
Lemma fetch_pages_first_request fuel yt pl max videos tok :
  len videos < max ->
  (1 <= page_requests (snd (fetch_pages (S fuel) yt pl max videos tok)))%nat.
Proof.
  intros Hlt. rewrite (fetch_pages_step fuel yt pl max videos tok Hlt). cbv zeta.
  destruct (playlistItems_list _ _ _ _) as [resp | e]; [| cbn; lia].
  destruct (items resp) as [its |]; [| cbn; lia].
  destruct (well_formed_items its); [| cbn; lia].
  destruct (token_truthy (nextPageToken resp)); cbn; lia.
Qed.

(** *** A provider that honours the page size *)

Section WellBehavedProvider.

Variable yt : YouTube.
Hypothesis Hsize : honours_page_size yt.
Hypothesis Hprog : pages_make_progress yt.

(** The loop returns within [max - len videos] iterations, and never holds
    more than [max] videos. *)
Lemma fetch_pages_returns fuel pl max videos tok :
  len videos <= max -> (Z.to_nat (max - len videos) <= fuel)%nat ->
  fst (fetch_pages fuel yt pl max videos tok) <> OutOfFuel /\
  forall vs, fst (fetch_pages fuel yt pl max videos tok) = Ret vs -> len vs <= max.
Proof.
  revert videos tok.
  induction fuel as [| fuel IH]; intros videos tok Hle Hfuel.
  - rewrite fetch_pages_done by lia. split; [done |]. by intros vs [= <-].
  - destruct (Z.lt_ge_cases (len videos) max) as [Hlt | Hge];
      [| rewrite fetch_pages_done by lia; split; [done |]; by intros vs [= <-]].
    rewrite (fetch_pages_step fuel yt pl max videos tok Hlt). cbv zeta.
    destruct (playlistItems_list _ _ _ _) as [resp | e] eqn:Hasked; [| done].
    destruct (items resp) as [its |] eqn:Hits; [| done].
    destruct (well_formed_items its) eqn:Hwf; [| done].
    assert (0 < Z.min 50 (max - len videos)) as Hpos by lia.
    pose proof (Hsize _ _ _ _ _ Hpos Hasked Hits) as Hn.
    pose proof (well_formed_items_length its Hwf) as Hlen.
    assert (len (videos ++ omap (fmap video_of_item) its) = len videos + len its)
      as Hnew by (unfold len in *; rewrite length_app; lia).
    destruct (token_truthy (nextPageToken resp)) eqn:Htok.
    + pose proof (Hprog _ _ _ _ _ Hpos Hasked Hits Htok) as Hne.
      assert (1 <= len its) by (unfold len; destruct its; [done | simpl; lia]).
      cbn [fst]. apply IH; lia.
    + cbn [fst]. split; [done |]. intros vs [= <-]. lia.
Qed.

(** A fetch of at most [max] videos returns once it has [max] units of
    fuel. *)
Lemma get_channel_videos_returns fuel cid max :
  0 <= max -> (Z.to_nat max <= fuel)%nat ->
  exists vs t, get_channel_videos fuel yt cid max = (Ret vs, t) /\ len vs <= max.
Proof.
  intros Hmax Hfuel.
  destruct (channels_list_cases yt cid) as [Hf | (pl & rest & Hch)].
  { destruct (get_channel_videos_unresolved fuel yt cid max Hf) as [msg ->].
    eexists _, _. split; [reflexivity | done]. }
  destruct (fetch_pages fuel yt pl max [] None) as [r t] eqn:Hfetch.
  pose proof (get_channel_videos_resolved fuel yt cid max pl rest r t Hch Hfetch) as H.
  destruct (fetch_pages_returns fuel pl max [] None) as [Hret Hbound];
    [done | unfold len; cbn [length]; lia |].
  rewrite Hfetch in Hret, Hbound. cbn [fst] in Hret, Hbound.
  destruct r as [vs | e |]; cbv zeta in H; [| | done].
  - eexists _, _. split; [exact H | by apply Hbound].
  - destruct H as [msg H]. eexists _, _. split; [exact H | done].
Qed.

(** So does the aggregation over the configured channels, with 50 units. *)
Lemma fetch_all_returns fuel ids acc :
  (50 <= fuel)%nat -> exists pool t, fetch_all fuel yt ids acc = (Ret pool, t).
Proof.
  intros Hfuel. revert acc.
  induction ids as [| cid ids IH]; intros acc; [by eexists _, _ |].
  cbn [fetch_all].
  destruct (get_channel_videos_returns fuel cid 50) as (vs & t & -> & _); [lia | lia |].
  destruct (IH (acc ++ vs)) as (pool & t' & Hrest).
  rewrite bind_ret_l, Hrest. by eexists _, _.
Qed.

End WellBehavedProvider.

(** C8, as the code has it.  A channel video fetch with [max_results = 75],
    against a provider that returns no more items than the page size asked
    for (the code asks for at most 50) and whose continued pages are not
    empty, returns at most 75 videos and sends no page request after a page
    without next-page token.  It sends a second page request when the first
    page is well formed and carries a next-page token, and exactly one page
    request when the first page is well formed and carries none. *)
Theorem get_channel_videos_75_pagination fuel yt cid :
  honours_page_size yt -> pages_make_progress yt -> (75 <= fuel)%nat ->
  exists vs t,
    get_channel_videos fuel yt cid 75 = (Ret vs, t) /\
    len vs <= 75 /\
    stops_at_last_page t = true /\
    (forall pl rest resp its,
       channels_list yt cid = Answer (Some (Some pl :: rest)) ->
       playlistItems_list yt pl 50 None = Answer resp ->
       items resp = Some its -> well_formed_items its = true ->
       if token_truthy (nextPageToken resp) then (2 <= page_requests t)%nat
       else page_requests t = 1%nat).
Proof.
  intros Hsize Hprog Hfuel.
  destruct (channels_list_cases yt cid) as [Hf | (pl & rest & Hch)].
  { destruct (get_channel_videos_unresolved fuel yt cid 75 Hf) as [msg ->].
    exists [], [ChannelsList cid (channels_list yt cid); Log ERROR msg].
    split; [done |]. split; [done |]. split; [done |].
    intros pl rest resp its Hch. rewrite Hch in Hf. discriminate. }
  destruct (fetch_pages fuel yt pl 75 [] None) as [r t] eqn:Hfetch.
  pose proof (get_channel_videos_resolved fuel yt cid 75 pl rest r t Hch Hfetch) as H.
  destruct (fetch_pages_returns yt Hsize Hprog fuel pl 75 [] None) as [Hret Hbound];
    [done | unfold len; cbn [length]; lia |].
  destruct (fetch_pages_trace fuel yt pl 75 [] None) as (_ & Hstop & _).
  rewrite Hfetch in Hret, Hbound, Hstop. cbn [fst snd] in Hret, Hbound, Hstop.
  assert (forall lvl msg resp its,
    playlistItems_list yt pl 50 None = Answer resp ->
    items resp = Some its -> well_formed_items its = true ->
    let t' := ChannelsList cid (Answer (Some (Some pl :: rest))) :: t ++ [Log lvl msg] in
    if token_truthy (nextPageToken resp) then (2 <= page_requests t')%nat
    else page_requests t' = 1%nat) as Hcount.
  { intros lvl msg resp its Hasked Hits Hwf t'.
    assert (page_requests t' = page_requests t) as ->.
    { subst t'. change (?e :: ?l ++ ?m) with ([e] ++ l ++ m).
      rewrite !page_requests_app. cbn. lia. }
    destruct fuel as [| fuel]; [lia |].
    rewrite (fetch_pages_step fuel yt pl 75 [] None) in Hfetch by done.
    cbv zeta in Hfetch. change (Z.min 50 (75 - len [])) with 50 in Hfetch.
    rewrite Hasked, Hits, Hwf in Hfetch.
    pose proof (Hsize _ 50 _ _ _ eq_refl Hasked Hits) as Hn.
    pose proof (well_formed_items_length its Hwf) as Hlen.
    destruct (token_truthy (nextPageToken resp)).
    - injection Hfetch as _ <-.
      destruct fuel as [| fuel]; [lia |].
      pose proof (fetch_pages_first_request fuel yt pl 75
        ([] ++ omap (fmap video_of_item) its) (nextPageToken resp)) as Hsecond.
      change (?e :: ?l) with ([e] ++ l). rewrite page_requests_app.
      cbn [page_requests List.filter is_page_request length].
      unfold len in *. rewrite app_nil_l in *. lia.
    - by injection Hfetch as _ <-. }
  destruct r as [vs | e |]; cbv zeta in H; [| | done].
  - eexists _, _. split; [exact H |]. split; [by apply Hbound |].
    split; [cbn [stops_at_last_page last_page]; by rewrite stops_at_last_page_app_log |].
    intros pl' rest' resp its Hch'. rewrite Hch in Hch'. injection Hch' as <- <-.
    apply Hcount.
  - destruct H as [msg H]. eexists _, _. split; [exact H |]. split; [done |].
    split; [cbn [stops_at_last_page last_page]; by rewrite stops_at_last_page_app_log |].
    intros pl' rest' resp its Hch'. rewrite Hch in Hch'. injection Hch' as <- <-.
    apply Hcount.
Qed.

Lemma yt_paged_honours_page_size : honours_page_size yt_paged.
Proof.
  intros pl n tok resp its Hn Hasked Hits.
  destruct tok; injection Hasked as <-; injection Hits as <-;
    unfold len; rewrite length_replicate; lia.
Qed.

Lemma yt_paged_makes_progress : pages_make_progress yt_paged.
Proof.
  intros pl n tok resp its Hn Hasked Hits Htok.
  destruct tok; injection Hasked as <-; [done |]. injection Hits as <-.
  destruct (Z.to_nat (Z.min n 50)) eqn:Hk; [lia | done].
Qed.

Lemma get_channel_videos_75_pagination_witness :
  exists vs t,
    get_channel_videos 75 yt_paged "UC1" 75 = (Ret vs, t) /\
    len vs <= 75 /\ stops_at_last_page t = true /\ (2 <= page_requests t)%nat.
Proof.
  destruct (get_channel_videos_75_pagination 75 yt_paged "UC1"
              yt_paged_honours_page_size yt_paged_makes_progress (le_n 75))
    as (vs & t & Hrun & Hlen & Hstop & Hcount).
  exists vs, t. split; [exact Hrun |]. split; [exact Hlen |]. split; [exact Hstop |].
  exact (Hcount "UU1" []
           (PlaylistResponse (Some (replicate 50 (Some snippet_a))) (Some "p2"))
           (replicate 50 (Some snippet_a)) eq_refl eq_refl eq_refl eq_refl).
Defined.

(** C8, as stated, fails: against a provider whose pages hold at most 50
    items, a fetch with [max_results = 75] of a channel with a single video
    sends one page request, not two. *)
Lemma get_channel_videos_75_single_request :
  pages_at_most 50 yt_single /\
  fst (get_channel_videos 75 yt_single "UC1" 75) = Ret [video_a] /\
  ~ (2 <= page_requests (snd (get_channel_videos 75 yt_single "UC1" 75)))%nat.
Proof.
  split; [| split].
  - intros pl k tok resp its [= <-] [= <-]. done.
  - reflexivity.
  - vm_compute. lia.
Qed.

(** The bound of 75 rests on the provider honouring the page size: pages
    of at most 50 items are not enough. *)
Lemma get_channel_videos_75_overfull :
  pages_at_most 50 yt_greedy /\
  exists vs t, get_channel_videos 75 yt_greedy "UC1" 75 = (Ret vs, t) /\ len vs = 100.
Proof.
  split.
  - intros pl k tok resp its Hasked Hits.
    destruct tok; injection Hasked as <-; injection Hits as <-; done.
  - eexists _, _. split; [vm_compute; reflexivity | reflexivity].
Qed.

(** ** Random sermon selector *)

Lemma candidates_subset last pool v : v ∈ candidates last pool -> v ∈ pool.
Proof.
  unfold candidates, available. destruct (nonempty _); [| done].
  intros Hin. by apply list_elem_of_filter in Hin as [_ Hin].
Qed.

Lemma candidates_nonempty last pool : pool <> [] -> candidates last pool <> [].
Proof.
  unfold candidates. destruct (available last pool) eqn:Hav; [done |].
  by intros _.
Qed.

Lemma choice_nonempty {A} (d : nat) (seq : list A) :
  seq <> [] -> exists x, seq !! (d mod length seq)%nat = Some x /\ choice d seq = ret x.
Proof.
  intros Hne. unfold choice.
  destruct (lookup_lt_is_Some_2 seq (d mod length seq)%nat) as [x Hx].
  { apply Nat.mod_upper_bound. by destruct seq. }
  exists x. by rewrite Hx.
Qed.

(** The selector on an empty aggregate pool. *)
Lemma get_random_sermon_empty fuel w self t :
  pool_of fuel w self = (Ret [], t) ->
  get_random_sermon fuel w self =
    ((Ret None, t ++ [Log ERROR "No sermons found in configured channels"]), self).
Proof.
  unfold pool_of. intros Hpool.
  unfold get_random_sermon, mtry, mbind, get_self, lift, ret, log.
  rewrite Hpool. cbn [nonempty negb app]. reflexivity.
Qed.

(** The selector on a non-empty aggregate pool. *)
Lemma get_random_sermon_pick fuel w self pool t :
  pool_of fuel w self = (Ret pool, t) -> pool <> [] ->
  exists v,
    candidates (last_sermon_id self) pool
      !! (draw w mod length (candidates (last_sermon_id self) pool))%nat = Some v /\
    get_random_sermon fuel w self = ((Ret (Some (sermon_of v)), t), selected self v).
Proof.
  unfold pool_of. intros Hpool Hne.
  destruct (choice_nonempty (draw w) (candidates (last_sermon_id self) pool)
              (candidates_nonempty _ _ Hne)) as (v & Hv & Hchoice).
  exists v. split; [exact Hv |].
  unfold get_random_sermon, mtry, mbind, get_self, lift.
  unfold ret at 1. rewrite Hpool.
  destruct pool as [| v0 pool']; [done |]. cbn [nonempty negb].
  set (pool := v0 :: pool') in *.
  replace (if negb (nonempty (available (last_sermon_id self) pool)) then pool
           else available (last_sermon_id self) pool)
    with (candidates (last_sermon_id self) pool)
    by (unfold candidates; by destruct (nonempty _)).
  rewrite Hchoice. unfold set_last_sermon_id, selected, ret. cbn [app].
  by rewrite !app_nil_r.
Qed.

(** When the aggregate pool is not obtained, no sermon is returned and the
    object is left as it was. *)
Lemma get_random_sermon_no_pool fuel w self r t :
  pool_of fuel w self = (r, t) -> (forall pool, r <> Ret pool) ->
  (forall d, fst (fst (get_random_sermon fuel w self)) <> Ret (Some d)) /\
  snd (get_random_sermon fuel w self) = self.
Proof.
  unfold pool_of. intros Hpool Hr.
  unfold get_random_sermon, mtry, mbind, get_self, lift, ret.
  rewrite Hpool.
  destruct r as [pool | e |]; [by destruct (Hr pool) | |]; cbn; by split.
Qed.

(** C7. The selector returns absent exactly when the aggregate pool over the
    configured channels is empty; on a non-empty pool it returns the sermon
    of a video of the pool, and records that video's identifier. *)
Theorem get_random_sermon_absent_iff_empty fuel w self pool t :
  pool_of fuel w self = (Ret pool, t) ->
  (fst (fst (get_random_sermon fuel w self)) = Ret None <-> pool = []) /\
  (pool <> [] ->
   exists v, v ∈ pool /\
     fst (fst (get_random_sermon fuel w self)) = Ret (Some (sermon_of v)) /\
     last_sermon_id (snd (get_random_sermon fuel w self)) = Some (video_id v)).
Proof.
  intros Hpool. destruct (decide (pool = [])) as [-> | Hne].
  - rewrite (get_random_sermon_empty fuel w self t Hpool). done.
  - destruct (get_random_sermon_pick fuel w self pool t Hpool Hne) as (v & Hv & ->).
    split; [done |]. intros _. exists v. split; [| done].
    eapply candidates_subset, list_elem_of_lookup_2, Hv.
Qed.

Lemma get_random_sermon_absent_iff_empty_witness :
  exists v, v ∈ [video_a; video_b] /\
    fst (fst (get_random_sermon 5 world_two emailer_new)) = Ret (Some (sermon_of v)) /\
    last_sermon_id (snd (get_random_sermon 5 world_two emailer_new)) = Some (video_id v).
Proof.
  apply (get_random_sermon_absent_iff_empty 5 world_two emailer_new
           [video_a; video_b] (snd (pool_of 5 world_two emailer_new))).
  - vm_compute. reflexivity.
  - discriminate.
Defined.

Lemma watch_url_inj i j : watch_url i = watch_url j -> i = j.
Proof. unfold watch_url. apply String.app_inj. Qed.

Lemma sermon_of_lookups v :
  sermon_of v !! "title" = Some (title v) /\
  sermon_of v !! "url" = Some (watch_url (video_id v)) /\
  sermon_of v !! "channel_title" = Some (channel_title v) /\
  sermon_of v !! "id" = None.
Proof. unfold sermon_of. repeat split; by simplify_map_eq. Qed.

(** C5. When the aggregate pool holds at least two distinct video
    identifiers and holds the exclusion identifier (the last one selected),
    the selector returns a video of the pool whose identifier differs from
    the exclusion identifier. *)
Theorem get_random_sermon_excludes_last fuel w self pool t excluded :
  pool_of fuel w self = (Ret pool, t) ->
  last_sermon_id self = Some excluded ->
  excluded ∈ video_id <$> pool ->
  (exists v1 v2, v1 ∈ pool /\ v2 ∈ pool /\ video_id v1 <> video_id v2) ->
  exists v, v ∈ pool /\ video_id v <> excluded /\
    fst (fst (get_random_sermon fuel w self)) = Ret (Some (sermon_of v)) /\
    last_sermon_id (snd (get_random_sermon fuel w self)) = Some (video_id v) /\
    sermon_of v !! "url" <> Some (watch_url excluded).
Proof.
  intros Hpool Hlast _ (v1 & v2 & Hv1 & Hv2 & Hdiff).
  assert (pool <> []) as Hne by (intros ->; by apply elem_of_nil in Hv1).
  assert (exists u, u ∈ available (Some excluded) pool) as [u Hu].
  { destruct (decide (video_id v1 = excluded)) as [He | He].
    - exists v2. apply list_elem_of_filter. split; [congruence | done].
    - exists v1. apply list_elem_of_filter. split; [congruence | done]. }
  destruct (get_random_sermon_pick fuel w self pool t Hpool Hne) as (v & Hv & ->).
  rewrite Hlast in Hv. unfold candidates in Hv.
  destruct (available (Some excluded) pool) as [| u0 av] eqn:Hav;
    [by apply elem_of_nil in Hu |].
  cbn [nonempty] in Hv. apply list_elem_of_lookup_2 in Hv.
  rewrite <- Hav in Hv. apply list_elem_of_filter in Hv as [Hid Hin].
  exists v. split; [done |]. split; [congruence |]. split; [done |]. split; [done |].
  destruct (sermon_of_lookups v) as (_ & -> & _).
  intros Heq. apply (inj Some), watch_url_inj in Heq. congruence.
Qed.

Lemma get_random_sermon_excludes_last_witness :
  exists v, v ∈ [video_a; video_b] /\ video_id v <> "a" /\
    fst (fst (get_random_sermon 5 world_two emailer_sent_a)) = Ret (Some (sermon_of v)) /\
    last_sermon_id (snd (get_random_sermon 5 world_two emailer_sent_a)) = Some (video_id v) /\
    sermon_of v !! "url" <> Some (watch_url "a").
Proof.
  apply (get_random_sermon_excludes_last 5 world_two emailer_sent_a
           [video_a; video_b] (snd (pool_of 5 world_two emailer_sent_a)) "a").
  - vm_compute. reflexivity.
  - reflexivity.
  - apply list_elem_of_In. simpl. auto.
  - exists video_a, video_b. split; [| split].
    + apply list_elem_of_In. simpl. auto.
    + apply list_elem_of_In. simpl. auto.
    + discriminate.
Defined.

(** C6. When excluding the last selected identifier leaves no candidate (in
    particular when the only video of the pool is the last one selected),
    the selector draws from the whole pool instead of returning absent: the
    video selected is the one last selected. *)
Theorem get_random_sermon_exclusion_degrades fuel w self pool t :
  pool_of fuel w self = (Ret pool, t) -> pool <> [] ->
  available (last_sermon_id self) pool = [] ->
  exists v, pool !! (draw w mod length pool)%nat = Some v /\
    fst (fst (get_random_sermon fuel w self)) = Ret (Some (sermon_of v)) /\
    last_sermon_id self = Some (video_id v) /\
    last_sermon_id (snd (get_random_sermon fuel w self)) = Some (video_id v).
Proof.
  intros Hpool Hne Hav.
  destruct (get_random_sermon_pick fuel w self pool t Hpool Hne) as (v & Hv & ->).
  unfold candidates in Hv. rewrite Hav in Hv. cbn [nonempty] in Hv.
  exists v. split; [done |]. split; [done |]. split; [| done].
  apply list_elem_of_lookup_2 in Hv.
  destruct (decide (Some (video_id v) = last_sermon_id self)) as [Heq | Hneq]; [done |].
  assert (v ∈ available (last_sermon_id self) pool) as Hin
    by (apply list_elem_of_filter; done).
  rewrite Hav in Hin. by apply elem_of_nil in Hin.
Qed.

Lemma get_random_sermon_exclusion_degrades_witness :
  exists v, [video_a] !! (0 mod 1)%nat = Some v /\
    fst (fst (get_random_sermon 5 world_single emailer_sent_a)) = Ret (Some (sermon_of v)) /\
    Some "a" = Some (video_id v) /\
    last_sermon_id (snd (get_random_sermon 5 world_single emailer_sent_a))
      = Some (video_id v).
Proof.
  apply (get_random_sermon_exclusion_degrades 5 world_single emailer_sent_a
           [video_a] (snd (pool_of 5 world_single emailer_sent_a))).
  - vm_compute. reflexivity.
  - discriminate.
  - reflexivity.
Defined.

(** C3, as the code has it.  Whenever the selector returns a sermon, it is a
    dictionary with exactly three keys: the title of the selected video, its
    watch URL (the fixed prefix followed by the identifier) and its channel
    title.  The identifier itself is not a field of the result; it is
    recorded in [last_sermon_id]. *)
Theorem get_random_sermon_result_fields fuel w self (d : gmap string string) :
  fst (fst (get_random_sermon fuel w self)) = Ret (Some d) ->
  exists pool t v,
    pool_of fuel w self = (Ret pool, t) /\ v ∈ pool /\
    d !! "title" = Some (title v) /\
    d !! "url" = Some ("https://www.youtube.com/watch?v=" +:+ video_id v) /\
    d !! "channel_title" = Some (channel_title v) /\
    dom d = ({["title"; "url"; "channel_title"]} : gset string) /\
    last_sermon_id (snd (get_random_sermon fuel w self)) = Some (video_id v).
Proof.
  intros Hret. destruct (pool_of fuel w self) as [r t] eqn:Hpool.
  destruct r as [pool | e |].
  - destruct (decide (pool = [])) as [-> | Hne].
    { rewrite (get_random_sermon_empty fuel w self t Hpool) in Hret. discriminate. }
    destruct (get_random_sermon_pick fuel w self pool t Hpool Hne) as (v & Hv & Hrun).
    rewrite Hrun in Hret |- *. injection Hret as <-.
    exists pool, t, v. split; [done |].
    split; [eapply candidates_subset, list_elem_of_lookup_2, Hv |].
    destruct (sermon_of_lookups v) as (Ht & Hu & Hc & _).
    split; [done |]. split; [done |]. split; [done |]. split; [| done].
    unfold sermon_of. rewrite !dom_insert_L, dom_empty_L. set_solver.
  - by destruct (get_random_sermon_no_pool fuel w self _ t Hpool) as [H _];
      [| destruct (H d)].
  - by destruct (get_random_sermon_no_pool fuel w self _ t Hpool) as [H _];
      [| destruct (H d)].
Qed.

Lemma get_random_sermon_result_fields_witness :
  exists pool t v,
    pool_of 5 world_two emailer_new = (Ret pool, t) /\ v ∈ pool /\
    sermon_of video_a !! "title" = Some (title v) /\
    sermon_of video_a !! "url" = Some ("https://www.youtube.com/watch?v=" +:+ video_id v) /\
    sermon_of video_a !! "channel_title" = Some (channel_title v) /\
    dom (sermon_of video_a) = ({["title"; "url"; "channel_title"]} : gset string) /\
    last_sermon_id (snd (get_random_sermon 5 world_two emailer_new)) = Some (video_id v).
Proof.
  apply (get_random_sermon_result_fields 5 world_two emailer_new (sermon_of video_a)).
  vm_compute. reflexivity.
Defined.

(** C3, as stated, fails: the sermon returned for a pool of two videos has
    no identifier field. *)
Lemma get_random_sermon_result_has_no_id :
  exists d : gmap string string,
    fst (fst (get_random_sermon 5 world_two emailer_new)) = Ret (Some d) /\
    d !! "id" = None /\ size d = 3%nat.
Proof.
  exists (sermon_of video_a). split; [vm_compute; reflexivity |].
  split; [by destruct (sermon_of_lookups video_a) as (_ & _ & _ & H) |].
  vm_compute. reflexivity.
Qed.

(** ** Notification dispatcher *)

(** [send_email] sends one message and reports whether the provider
    accepted it; it raises nothing. *)
Lemma send_email_eq (es : EmailService) (sub bod : string) :
  let m := MkMail (es_sender_email es) (es_recipient_email es) sub "text/plain" bod in
  exists lvl msg,
    send_email es sub bod =
      (Ret (accepted_dispatch (SendGridSend m (sg es m))),
       [SendGridSend m (sg es m); Log lvl msg]).
Proof.
  intros m. unfold send_email. fold m.
  destruct (sg es m) as [status_code | e]; cbn [execute].
  - rewrite bind_ret_l. cbn [accepted_dispatch].
    destruct (status_code =? 202); rewrite log_bind; cbn; eexists _, _; reflexivity.
  - cbn. eexists _, _; reflexivity.
Qed.

(** ** Daily cycle *)

(** Name the result, the trace and the object of a run, and close the
    conjuncts that hold by computation. *)
Ltac settle := eexists _, _, _; repeat (split; [done |]).

Lemma filter_page_requests (f : event -> bool) (t : trace) :
  (forall e, is_page_request e = true -> f e = false) ->
  forallb is_page_request t = true -> List.filter f t = [].
Proof.
  intros Hf. induction t as [| e t IH]; [done |].
  cbn [forallb List.filter]. intros [He Ht]%andb_true_iff.
  rewrite (Hf e He). by apply IH.
Qed.

(** A channel video fetch sends no message. *)
Lemma get_channel_videos_no_dispatch fuel yt cid max :
  List.filter is_dispatch (snd (get_channel_videos fuel yt cid max)) = [].
Proof.
  destruct (channels_list_cases yt cid) as [Hf | (pl & rest & Hch)].
  - destruct (get_channel_videos_unresolved fuel yt cid max Hf) as [msg ->]. done.
  - destruct (fetch_pages fuel yt pl max [] None) as [r t] eqn:Hfetch.
    pose proof (get_channel_videos_resolved fuel yt cid max pl rest r t Hch Hfetch) as H.
    destruct (fetch_pages_trace fuel yt pl max [] None) as (Hreq & _ & _).
    rewrite Hfetch in Hreq. cbn [snd] in Hreq.
    assert (List.filter is_dispatch t = []) as Ht
      by (apply filter_page_requests; [by intros [] | done]).
    destruct r as [vs | e' |]; cbv zeta in H.
    + rewrite H. cbn [snd List.filter is_dispatch]. by rewrite List.filter_app, Ht.
    + destruct H as [msg ->]. cbn [snd List.filter is_dispatch].
      by rewrite List.filter_app, Ht.
    + rewrite H. cbn [snd List.filter is_dispatch]. done.
Qed.

Lemma fetch_all_no_dispatch fuel yt ids acc :
  List.filter is_dispatch (snd (fetch_all fuel yt ids acc)) = [].
Proof.
  revert acc. induction ids as [| cid ids IH]; intros acc; [done |].
  cbn [fetch_all].
  destruct (get_channel_videos fuel yt cid 50) as [r t] eqn:Hg.
  pose proof (get_channel_videos_no_dispatch fuel yt cid 50) as Hnd.
  rewrite Hg in Hnd. cbn [snd] in Hnd.
  destruct r as [vs | e |]; cbn [bind]; [| done | done].
  specialize (IH (acc ++ vs)). destruct (fetch_all fuel yt ids (acc ++ vs)) as [r' t'].
  cbn [snd] in *. by rewrite List.filter_app, Hnd, IH.
Qed.

Lemma fetch_all_never_raises fuel yt ids acc e :
  fst (fetch_all fuel yt ids acc) <> Raise e.
Proof.
  revert acc. induction ids as [| cid ids IH]; intros acc; [done |].
  cbn [fetch_all].
  pose proof (get_channel_videos_never_raises fuel yt cid 50) as Hnr.
  destruct (get_channel_videos fuel yt cid 50) as [[vs | e' |] t]; cbn [bind fst] in *.
  - specialize (IH (acc ++ vs)). by destruct (fetch_all fuel yt ids (acc ++ vs)).
  - by destruct (Hnr e').
  - done.
Qed.

Lemma sermon_of_nonempty v : sermon_of v <> ∅.
Proof. unfold sermon_of. apply insert_non_empty. Qed.

(** What a call of the selector amounts to. *)
Lemma get_random_sermon_summary fuel w self :
  exists r t self',
    get_random_sermon fuel w self = ((r, t), self') /\
    config self' = config self /\
    last_sermon_date self' = last_sermon_date self /\
    List.filter is_dispatch t = [] /\
    ((r = Ret None /\ self' = self) \/ (r = OutOfFuel /\ self' = self) \/
     exists v, r = Ret (Some (sermon_of v)) /\ self' = selected self v).
Proof.
  destruct (pool_of fuel w self) as [rp t] eqn:Hpool.
  pose proof (fetch_all_no_dispatch fuel (youtube w) (youtube_channel_ids (config self)) [])
    as Hnd.
  pose proof (fetch_all_never_raises fuel (youtube w) (youtube_channel_ids (config self)) [])
    as Hnr.
  fold (pool_of fuel w self) in Hnd, Hnr. rewrite Hpool in Hnd, Hnr. cbn [fst snd] in *.
  destruct rp as [pool | e |].
  - destruct (decide (pool = [])) as [-> | Hne].
    + rewrite (get_random_sermon_empty fuel w self t Hpool).
      settle. split; [by rewrite List.filter_app, Hnd | by left].
    + destruct (get_random_sermon_pick fuel w self pool t Hpool Hne) as (v & _ & ->).
      settle. right; right. by exists v.
  - by destruct (Hnr e).
  - exists OutOfFuel, t, self.
    split; [| split; [done |]; split; [done |]; split; [done |]; right; by left].
    unfold pool_of in Hpool.
    unfold get_random_sermon, mtry, mbind, get_self, lift, ret. by rewrite Hpool.
Qed.

(** The gate: a sermon was already sent today. *)
Lemma send_daily_sermon_gated fuel w self :
  last_sermon_date self = Some (today w) ->
  send_daily_sermon fuel w self =
    ((Ret tt, [Log INFO "Sermon already sent today"]), self).
Proof.
  intros Hdate. unfold send_daily_sermon, mtry, mbind, get_self, lift, ret.
  by rewrite bool_decide_eq_true_2.
Qed.

Lemma send_daily_sermon_no_sermon fuel w self t :
  last_sermon_date self <> Some (today w) ->
  get_random_sermon fuel w self = ((Ret None, t), self) ->
  send_daily_sermon fuel w self =
    ((Ret tt, t ++ [Log ERROR "Failed to get sermon"]), self).
Proof.
  intros Hdate Hsel. unfold send_daily_sermon, mtry, mbind, get_self, lift, ret.
  rewrite bool_decide_eq_false_2 by done. rewrite Hsel. done.
Qed.

Lemma send_daily_sermon_out_of_fuel fuel w self t :
  last_sermon_date self <> Some (today w) ->
  get_random_sermon fuel w self = ((OutOfFuel, t), self) ->
  send_daily_sermon fuel w self = ((OutOfFuel, t), self).
Proof.
  intros Hdate Hsel. unfold send_daily_sermon, mtry, mbind, get_self, lift, ret.
  rewrite bool_decide_eq_false_2 by done. rewrite Hsel. done.
Qed.

(** The cycle once a video is selected: one dispatch, and the date is
    recorded exactly when the provider accepted it. *)
Lemma send_daily_sermon_selected fuel w self v t :
  last_sermon_date self <> Some (today w) ->
  get_random_sermon fuel w self = ((Ret (Some (sermon_of v)), t), selected self v) ->
  let sent := SendGridSend (mail_for self v) (sendgrid w (mail_for self v)) in
  exists lvl msg,
    send_daily_sermon fuel w self =
      if accepted_dispatch sent then
        ((Ret tt, t ++ [sent; Log lvl msg;
                        Log INFO ("Successfully sent sermon: " +:+ title v)]),
         MkSermonEmailer (config self) (Some (today w)) (Some (video_id v)))
      else
        ((Ret tt, t ++ [sent; Log lvl msg; Log ERROR "Failed to send sermon email"]),
         selected self v).
Proof.
  intros Hdate Hsel sent.
  destruct (send_email_eq (email_service (selected self v) w) subject
              (body (title v) (channel_title v) (watch_url (video_id v))))
    as (lvl & msg & Hsend).
  exists lvl, msg.
  unfold send_daily_sermon, mtry, mbind, get_self, lift.
  unfold ret at 1. rewrite bool_decide_eq_false_2 by done. rewrite Hsel.
  unfold sermon_truthy. rewrite bool_decide_eq_false_2 by apply sermon_of_nonempty.
  cbn [negb from_option id].
  destruct (sermon_of_lookups v) as (-> & -> & -> & _).
  cbn [getitem]. unfold ret.
  rewrite Hsend. cbn [email_service es_sender_email es_recipient_email sg selected config].
  fold (mail_for self v). fold sent.
  destruct (accepted_dispatch sent); unfold set_last_sermon_date, ret, log; cbn;
    by rewrite ?app_nil_r.
Qed.

Lemma successful_dispatches_app t1 t2 :
  successful_dispatches (t1 ++ t2) =
    (successful_dispatches t1 + successful_dispatches t2)%nat.
Proof. unfold successful_dispatches. by rewrite List.filter_app, length_app. Qed.

Lemma requests_app t1 t2 : requests (t1 ++ t2) = (requests t1 + requests t2)%nat.
Proof. unfold requests. by rewrite List.filter_app, length_app. Qed.

Lemma successful_dispatches_le_requests t :
  (successful_dispatches t <= requests t)%nat.
Proof.
  unfold successful_dispatches, requests.
  induction t as [| e t IH]; [done |]. cbn [List.filter].
  destruct e as [lvl msg | cid r | pl n tok r | m [c | x]]; cbn; try lia.
  destruct (c =? 202); cbn; lia.
Qed.

Lemma no_dispatch_no_success t :
  List.filter is_dispatch t = [] -> successful_dispatches t = 0%nat.
Proof.
  unfold successful_dispatches. induction t as [| e t IH]; [done |].
  cbn [List.filter]. destruct e as [lvl msg | cid r | pl n tok r | m r]; cbn; auto.
  discriminate.
Qed.

(** One cycle: it raises nothing; when gated it sends no request and leaves
    the object alone; otherwise either no dispatch is accepted and the date
    is kept, or one is and the date becomes today. *)
Lemma send_daily_sermon_step fuel w self :
  exists r t self',
    send_daily_sermon fuel w self = ((r, t), self') /\
    (forall e, r <> Raise e) /\
    config self' = config self /\
    (last_sermon_date self = Some (today w) ->
     requests t = 0%nat /\ self' = self /\ r = Ret tt) /\
    ((successful_dispatches t = 0%nat /\ last_sermon_date self' = last_sermon_date self) \/
     (successful_dispatches t = 1%nat /\ last_sermon_date self' = Some (today w) /\
      r = Ret tt)).
Proof.
  destruct (decide (last_sermon_date self = Some (today w))) as [Hdate | Hdate].
  { rewrite (send_daily_sermon_gated fuel w self Hdate).
    settle. by left. }
  destruct (get_random_sermon_summary fuel w self)
    as (r & t & self1 & Hsel & Hcfg & Hd & Hnd & Hcases).
  pose proof (no_dispatch_no_success t Hnd) as Hzero.
  destruct Hcases as [[-> ->] | [[-> ->] | (v & -> & ->)]].
  - rewrite (send_daily_sermon_no_sermon fuel w self t Hdate Hsel).
    settle. left. by rewrite successful_dispatches_app, Hzero.
  - rewrite (send_daily_sermon_out_of_fuel fuel w self t Hdate Hsel).
    settle. by left.
  - destruct (send_daily_sermon_selected fuel w self v t Hdate Hsel) as (lvl & msg & ->).
    destruct (accepted_dispatch _) eqn:Hacc.
    + settle. right. rewrite successful_dispatches_app, Hzero.
      unfold successful_dispatches. cbn [List.filter]. rewrite Hacc. done.
    + settle. left. rewrite successful_dispatches_app, Hzero.
      unfold successful_dispatches. cbn [List.filter]. rewrite Hacc. done.
Qed.

Lemma polling_cons due fuel w rest self :
  polling ((due, (fuel, w)) :: rest) self =
    let '((r, t), self') :=
      (if due then send_daily_sermon fuel w self else ((Ret tt, []), self)) in
    match r with
    | Ret _ => (fst (fst (polling rest self')), t ++ snd (fst (polling rest self')),
                snd (polling rest self'))
    | Raise e => ((Raise e, t), self')
    | OutOfFuel => ((OutOfFuel, t), self')
    end.
Proof.
  cbn [polling]. unfold mbind.
  destruct due; [| unfold lift, ret].
  - destruct (send_daily_sermon fuel w self) as [[[[] | e |] t] self']; try done.
    by destruct (polling rest self') as [[r' t'] self''].
  - by destruct (polling rest self) as [[r' t'] self''].
Qed.

(** Passes made on a day whose sermon is already sent do nothing but log. *)
Lemma polling_gated passes self d :
  Forall (on_day d) passes -> last_sermon_date self = Some d ->
  requests (snd (fst (polling passes self))) = 0%nat /\
  snd (polling passes self) = self.
Proof.
  intros Hday Hdate. induction Hday as [| [due [fuel w]] rest Hd Hrest IH]; [done |].
  rewrite polling_cons. unfold on_day in Hd. cbn [snd] in Hd.
  destruct due; [| cbn [fst snd app]; done].
  destruct (send_daily_sermon_step fuel w self)
    as (r & t & self' & -> & _ & _ & Hgate & _).
  destruct Hgate as (Hreq & -> & ->); [congruence |].
  cbn [fst snd]. rewrite requests_app, Hreq. by destruct IH as [-> ->].
Qed.

(** C4. Once [last_sermon_date] is today's date, an invocation of the daily
    cycle on that day only logs: no selection, no dispatch, the object
    unchanged; so are all the passes the polling loop makes on that day.
    Hence, whatever the object was at first, the passes made on one
    calendar day record at most one successful dispatch. *)
Theorem one_dispatch_per_day passes self d :
  Forall (on_day d) passes ->
  (forall fuel w, today w = d -> last_sermon_date self = Some d ->
     send_daily_sermon fuel w self =
       ((Ret tt, [Log INFO "Sermon already sent today"]), self)) /\
  (last_sermon_date self = Some d ->
     requests (snd (fst (polling passes self))) = 0%nat /\
     snd (polling passes self) = self) /\
  (successful_dispatches (snd (fst (polling passes self))) <= 1)%nat.
Proof.
  intros Hday. split; [| split].
  - intros fuel w <- Hdate. by apply send_daily_sermon_gated.
  - by apply polling_gated.
  - revert self. induction Hday as [| [due [fuel w]] rest Hd Hrest IH]; intros self;
      [cbn; lia |].
    rewrite polling_cons. unfold on_day in Hd. cbn [snd] in Hd.
    destruct due; [| cbn [fst snd app]; apply IH].
    destruct (send_daily_sermon_step fuel w self)
      as (r & t & self' & -> & Hnr & _ & _ & Hcount).
    destruct r as [[] | e |]; [| by destruct (Hnr e) |].
    + cbn [fst snd]. rewrite successful_dispatches_app.
      destruct Hcount as [[-> _] | (-> & Hdate & _)].
      * apply IH.
      * destruct (polling_gated rest self' d Hrest) as [Hreq _]; [congruence |].
        pose proof (successful_dispatches_le_requests (snd (fst (polling rest self')))).
        lia.
    + cbn [fst snd]. destruct Hcount as [[-> _] | (-> & _ & [=])]. lia.
Qed.

Lemma one_dispatch_per_day_witness :
  (successful_dispatches
     (snd (fst (polling [(true, (5%nat, world_two)); (true, (5%nat, world_two))]
                  emailer_new))) <= 1)%nat.
Proof.
  apply (one_dispatch_per_day
           [(true, (5%nat, world_two)); (true, (5%nat, world_two))] emailer_new day1).
  repeat constructor.
Defined.

(** The scenario of the two invocations on one day: the first dispatch is
    accepted, the second pass sends nothing. *)
Lemma two_passes_one_dispatch :
  successful_dispatches
    (snd (fst (polling [(true, (5%nat, world_two)); (true, (5%nat, world_two))]
                 emailer_new))) = 1%nat /\
  dispatch_attempts
    (snd (fst (polling [(true, (5%nat, world_two)); (true, (5%nat, world_two))]
                 emailer_new))) = 1%nat.
Proof. split; vm_compute; reflexivity. Qed.

(** C1 on the code.  With the last sermon sent being ["a"] and a pool of two
    videos, a cycle whose dispatch is refused (status 500) keeps
    [last_sermon_date] but leaves [last_sermon_id] at ["b"], the video
    selected and not sent. *)
Theorem failed_dispatch_moves_last_sermon_id :
  dispatch_attempts (snd (fst (send_daily_sermon 5 world_refused emailer_sent_a))) = 1%nat /\
  successful_dispatches (snd (fst (send_daily_sermon 5 world_refused emailer_sent_a))) = 0%nat /\
  last_sermon_date (snd (send_daily_sermon 5 world_refused emailer_sent_a))
    = last_sermon_date emailer_sent_a /\
  last_sermon_id emailer_sent_a = Some "a" /\
  last_sermon_id (snd (send_daily_sermon 5 world_refused emailer_sent_a)) = Some "b".
Proof. repeat split; vm_compute; reflexivity. Qed.

(** The part of C1 the code keeps: a cycle without an accepted dispatch
    leaves [last_sermon_date] as it was. *)
Lemma failed_dispatch_keeps_last_sermon_date fuel w self :
  successful_dispatches (snd (fst (send_daily_sermon fuel w self))) = 0%nat ->
  last_sermon_date (snd (send_daily_sermon fuel w self)) = last_sermon_date self.
Proof.
  destruct (send_daily_sermon_step fuel w self)
    as (r & t & self' & -> & _ & _ & _ & [[_ Hd] | (H1 & _)]); cbn [fst snd].
  - done.
  - rewrite H1. discriminate.
Qed.

(** Whenever a video was selected and its dispatch was not accepted, the
    object records that video as the last one. *)
Lemma failed_dispatch_records_selection fuel w self v t :
  last_sermon_date self <> Some (today w) ->
  get_random_sermon fuel w self = ((Ret (Some (sermon_of v)), t), selected self v) ->
  accepted_dispatch (SendGridSend (mail_for self v) (sendgrid w (mail_for self v))) = false ->
  last_sermon_id (snd (send_daily_sermon fuel w self)) = Some (video_id v).
Proof.
  intros Hdate Hsel Hacc.
  destruct (send_daily_sermon_selected fuel w self v t Hdate Hsel) as (lvl & msg & ->).
  by rewrite Hacc.
Qed.

(** ** Startup *)

Lemma get_required_env_cases env key :
  (exists v, env !! key = Some v /\ v <> "" /\ _get_required_env env key = ret v) \/
  (absent env key /\ exists e, _get_required_env env key = raise e).
Proof.
  unfold _get_required_env, absent. destruct (env !! key) as [[| c v] |]; cbn.
  - right. split; [by right | by eexists].
  - left. by exists (String c v).
  - right. split; [by left | by eexists].
Qed.

Lemma format_warnings_not_info ids lvl msg :
  lvl <> WARNING -> Log lvl msg ∉ format_warnings ids.
Proof.
  intros Hlvl. unfold format_warnings. induction ids as [| cid ids IH]; cbn.
  - apply not_elem_of_nil.
  - destruct (channel_id_format cid); cbn; [done |].
    intros [Heq | Hin]%elem_of_cons; [congruence | done].
Qed.

(** [Config.__init__] either builds the configuration, every required value
    being present, or raises, having logged format warnings at most. *)
Lemma Config_init_cases env :
  (exists cfg,
     Config_init env = (Ret cfg, format_warnings (youtube_channel_ids cfg)) /\
     forall key, key ∈ required_keys -> ~ absent env key) \/
  (exists e ids, Config_init env = (Raise e, format_warnings ids)).
Proof.
  unfold Config_init.
  destruct (get_required_env_cases env "YOUTUBE_API_KEY")
    as [(v1 & H1 & N1 & ->) | (A1 & e & ->)];
    [rewrite ret_bind | right; by exists e, []].
  destruct (get_required_env_cases env "YOUTUBE_CHANNEL_IDS")
    as [(v2 & H2 & N2 & E2) | (A2 & e & E2)].
  2:{ right. exists e, []. unfold _get_channel_ids. by rewrite E2. }
  rewrite (get_channel_ids_set env v2 H2 N2), bind_ret_l.
  set (ids := Py.strip <$> Py.split "," v2).
  cbn [fst snd].
  destruct (get_required_env_cases env "SENDGRID_API_KEY")
    as [(v3 & H3 & N3 & ->) | (A3 & e & ->)];
    [rewrite ret_bind | right; exists e, ids; by rewrite raise_bind, app_nil_r].
  destruct (get_required_env_cases env "SENDER_EMAIL")
    as [(v4 & H4 & N4 & ->) | (A4 & e & ->)];
    [rewrite ret_bind | right; exists e, ids; by rewrite raise_bind, app_nil_r].
  destruct (get_required_env_cases env "RECIPIENT_EMAIL")
    as [(v5 & H5 & N5 & ->) | (A5 & e & ->)];
    [rewrite ret_bind | right; exists e, ids; by rewrite raise_bind, app_nil_r].
  unfold int_env.
  destruct (Py.int (getenv_default env "CHECK_INTERVAL_HOURS" "24")) as [n |];
    [rewrite ret_bind | right; eexists _, ids; by rewrite raise_bind, app_nil_r].
  left. eexists (MkConfig _ _ _ _ _ _ _ _).
  cbn [ret fst snd youtube_channel_ids]. rewrite app_nil_r. split; [reflexivity |].
  intros key Hkey [Hnone | Hempty];
    repeat (apply elem_of_cons in Hkey as [-> | Hkey]; [congruence |]);
    by apply elem_of_nil in Hkey.
Qed.

Lemma run_started first passes self :
  exists r t self',
    run first passes self = ((r, Log INFO "Starting Sermon Emailer service" :: t), self').
Proof.
  unfold run. unfold mbind at 1. unfold lift at 1, log. cbn beta iota.
  destruct (mbind (send_daily_sermon first.1 first.2) _ self) as [[r t] s].
  by exists r, t, s.
Qed.

(** Once the object is built, [run] is entered. *)
Lemma main_started env first passes self t :
  SermonEmailer_init env = (Ret self, t) ->
  exists r t' self', main env first passes = ((r, t'), Some self') /\ loop_started t'.
Proof.
  intros Hinit. unfold main. rewrite Hinit.
  destruct (run_started first passes self) as (r & tr & self' & ->).
  destruct r as [[] | e |]; cbn [try_except]; unfold log; eexists _, _, _;
    (split; [reflexivity |]); unfold loop_started;
    apply elem_of_app; right; apply elem_of_cons; by left.
Qed.


(** C2 on the code.  With every required value present and a sender address
    without at-sign, [Config.validate] would report the configuration
    invalid, yet startup does not call it: the object is built and [run] is
    entered, whatever happens next. *)
Theorem startup_skips_validation first passes :
  exists cfg t,
    Config_init env_sender_without_at = (Ret cfg, t) /\
    Py.contains "@" (sender_email cfg) = false /\
    validate cfg =
      (Ret false,
       [Log ERROR "Configuration validation failed: Invalid sender email format"]) /\
    exists r t' self',
      main env_sender_without_at first passes = ((r, t'), Some self') /\
      loop_started t'.
Proof.
  eexists _, _. split; [vm_compute; reflexivity |].
  split; [reflexivity |]. split; [vm_compute; reflexivity |].
  eapply main_started. vm_compute. reflexivity.
Qed.

(** * Further properties *)

(** ** Configuration and startup *)

Lemma absentb_absent env key : absentb env key = true <-> absent env key.
Proof.
  unfold absentb, absent. destruct (env !! key) as [[| c v] |]; cbn; split;
    try done; try (by right); try (by left); by intros [H | H].
Qed.

Lemma get_required_env_absent env key :
  absentb env key = true -> _get_required_env env key = raise (ValueError (not_set key)).
Proof.
  unfold absentb, _get_required_env, not_set.
  destruct (env !! key) as [v |]; [| done]. by intros ->.
Qed.

Lemma get_required_env_present env key :
  absentb env key = false ->
  exists v, env !! key = Some v /\ v <> "" /\ _get_required_env env key = ret v.
Proof.
  unfold absentb, _get_required_env.
  destruct (env !! key) as [[| c v] |]; cbn; try done. intros _. by eexists.
Qed.

(** X1. [Config.__init__] reports the first absent required value, in the
    order it reads them: it raises the [ValueError] naming that variable,
    whatever the other values are. *)
Theorem Config_init_names_first_absent env key :
  first_absent env = Some key ->
  fst (Config_init env) = Raise (ValueError (not_set key)).
Proof.
  unfold first_absent, required_keys. cbn [List.find]. unfold Config_init.
  destruct (absentb env "YOUTUBE_API_KEY") eqn:A1.
  { intros [= <-]. by rewrite (get_required_env_absent _ _ A1). }
  destruct (get_required_env_present _ _ A1) as (v1 & _ & _ & ->). rewrite ret_bind.
  destruct (absentb env "YOUTUBE_CHANNEL_IDS") eqn:A2.
  { intros [= <-]. unfold _get_channel_ids.
    by rewrite (get_required_env_absent _ _ A2). }
  destruct (get_required_env_present _ _ A2) as (v2 & H2 & N2 & _).
  rewrite (get_channel_ids_set env v2 H2 N2), bind_ret_l. cbn [fst].
  destruct (absentb env "SENDGRID_API_KEY") eqn:A3.
  { intros [= <-]. by rewrite (get_required_env_absent _ _ A3). }
  destruct (get_required_env_present _ _ A3) as (v3 & _ & _ & ->). rewrite ret_bind.
  destruct (absentb env "SENDER_EMAIL") eqn:A4.
  { intros [= <-]. by rewrite (get_required_env_absent _ _ A4). }
  destruct (get_required_env_present _ _ A4) as (v4 & _ & _ & ->). rewrite ret_bind.
  destruct (absentb env "RECIPIENT_EMAIL") eqn:A5.
  { intros [= <-]. by rewrite (get_required_env_absent _ _ A5). }
  discriminate.
Qed.

Lemma Config_init_names_first_absent_witness :
  fst (Config_init (<["YOUTUBE_API_KEY" := "key"]> (<["SENDER_EMAIL" := ""]> ∅)))
    = Raise (ValueError "Required environment variable YOUTUBE_CHANNEL_IDS is not set").
Proof.
  apply (Config_init_names_first_absent
           (<["YOUTUBE_API_KEY" := "key"]> (<["SENDER_EMAIL" := ""]> ∅))
           "YOUTUBE_CHANNEL_IDS").
  reflexivity.
Defined.

(** What a built configuration holds. *)
Lemma Config_init_inv env cfg t :
  Config_init env = (Ret cfg, t) ->
  exists ids_str,
    first_absent env = None /\
    env !! "YOUTUBE_API_KEY" = Some (youtube_api_key cfg) /\
    env !! "YOUTUBE_CHANNEL_IDS" = Some ids_str /\
    youtube_channel_ids cfg = Py.strip <$> Py.split "," ids_str /\
    env !! "SENDGRID_API_KEY" = Some (sendgrid_api_key cfg) /\
    env !! "SENDER_EMAIL" = Some (sender_email cfg) /\
    env !! "RECIPIENT_EMAIL" = Some (recipient_email cfg) /\
    Py.int (getenv_default env "CHECK_INTERVAL_HOURS" "24") = Some (check_interval_hours cfg) /\
    log_level cfg = getenv_default env "LOG_LEVEL" "INFO" /\
    log_file cfg = getenv_default env "LOG_FILE" "logs/sermon_emailer.log" /\
    t = format_warnings (youtube_channel_ids cfg).
Proof.
  unfold first_absent, required_keys. cbn [List.find]. unfold Config_init.
  destruct (absentb env "YOUTUBE_API_KEY") eqn:A1.
  { by rewrite (get_required_env_absent _ _ A1). }
  destruct (get_required_env_present _ _ A1) as (v1 & H1 & _ & ->). rewrite ret_bind.
  destruct (absentb env "YOUTUBE_CHANNEL_IDS") eqn:A2.
  { unfold _get_channel_ids. by rewrite (get_required_env_absent _ _ A2). }
  destruct (get_required_env_present _ _ A2) as (v2 & H2 & N2 & _).
  rewrite (get_channel_ids_set env v2 H2 N2), bind_ret_l. cbn [fst snd].
  destruct (absentb env "SENDGRID_API_KEY") eqn:A3.
  { by rewrite (get_required_env_absent _ _ A3). }
  destruct (get_required_env_present _ _ A3) as (v3 & H3 & _ & ->). rewrite ret_bind.
  destruct (absentb env "SENDER_EMAIL") eqn:A4.
  { by rewrite (get_required_env_absent _ _ A4). }
  destruct (get_required_env_present _ _ A4) as (v4 & H4 & _ & ->). rewrite ret_bind.
  destruct (absentb env "RECIPIENT_EMAIL") eqn:A5.
  { by rewrite (get_required_env_absent _ _ A5). }
  destruct (get_required_env_present _ _ A5) as (v5 & H5 & _ & ->). rewrite ret_bind.
  unfold int_env.
  destruct (Py.int (getenv_default env "CHECK_INTERVAL_HOURS" "24")) as [n |] eqn:Hint;
    [rewrite ret_bind | done].
  cbn [ret fst snd]. rewrite app_nil_r. intros [= <- <-]. cbn.
  exists v2. repeat split; done.
Qed.

Lemma first_absent_none env key :
  first_absent env = None -> key ∈ required_keys -> absentb env key = false.
Proof.
  unfold first_absent. intros Hnone Hin.
  apply list_elem_of_In in Hin.
  by apply (List.find_none _ _ Hnone) in Hin.
Qed.

(** X2. Every configuration [Config.__init__] builds holds the four
    required strings as the environment has them, none of them empty, and
    at least one channel identifier; the interval is the integer the
    environment spells, or 24 when [CHECK_INTERVAL_HOURS] is unset, and the
    log level and log file default to ["INFO"] and
    ["logs/sermon_emailer.log"]. *)
Theorem Config_init_built env cfg t :
  Config_init env = (Ret cfg, t) ->
  (env !! "YOUTUBE_API_KEY" = Some (youtube_api_key cfg) /\ youtube_api_key cfg <> "") /\
  (env !! "SENDGRID_API_KEY" = Some (sendgrid_api_key cfg) /\ sendgrid_api_key cfg <> "") /\
  (env !! "SENDER_EMAIL" = Some (sender_email cfg) /\ sender_email cfg <> "") /\
  (env !! "RECIPIENT_EMAIL" = Some (recipient_email cfg) /\ recipient_email cfg <> "") /\
  (1 <= length (youtube_channel_ids cfg))%nat /\
  (env !! "CHECK_INTERVAL_HOURS" = None -> check_interval_hours cfg = 24) /\
  (forall v, env !! "CHECK_INTERVAL_HOURS" = Some v -> Py.int v = Some (check_interval_hours cfg)) /\
  (env !! "LOG_LEVEL" = None -> log_level cfg = "INFO") /\
  (env !! "LOG_FILE" = None -> log_file cfg = "logs/sermon_emailer.log").
Proof.
  intros Hinit.
  destruct (Config_init_inv env cfg t Hinit)
    as (v2 & Hfa & H1 & H2 & Hids & H3 & H4 & H5 & Hint & Hlvl & Hfile & _).
  assert (forall key v, key ∈ required_keys -> env !! key = Some v -> v <> "") as Hne.
  { intros key v Hkey Hv ->. pose proof (first_absent_none env key Hfa Hkey) as Hb.
    unfold absentb in Hb. by rewrite Hv in Hb. }
  unfold required_keys in Hne.
  split; [split; [done | eapply Hne; [| exact H1]; set_solver] |].
  split; [split; [done | eapply Hne; [| exact H3]; set_solver] |].
  split; [split; [done | eapply Hne; [| exact H4]; set_solver] |].
  split; [split; [done | eapply Hne; [| exact H5]; set_solver] |].
  split.
  { rewrite Hids, length_fmap. unfold Py.split.
    pose proof (split_go_nonempty "," "" v2).
    destruct (Py.split_go "," "" v2); [done | simpl; lia]. }
  unfold getenv_default in *.
  split; [intros Hu; rewrite Hu in Hint; change (Py.int "24") with (Some 24) in Hint;
          congruence |].
  split; [intros v Hv; by rewrite Hv in Hint |].
  split; [intros Hu; by rewrite Hu in Hlvl | intros Hu; by rewrite Hu in Hfile].
Qed.

Lemma Config_init_built_witness :
  exists cfg t,
    Config_init env_sender_without_at = (Ret cfg, t) /\
    check_interval_hours cfg = 24 /\ log_level cfg = "INFO" /\
    youtube_api_key cfg <> "".
Proof.
  eexists _, _. split; [vm_compute; reflexivity |].
  destruct (Config_init_built env_sender_without_at _ _ eq_refl)
    as ([_ Hkey] & _ & _ & _ & _ & Hint & _ & Hlvl & _).
  split; [apply Hint; reflexivity |]. split; [apply Hlvl; reflexivity | exact Hkey].
Defined.

(** X3. [Config.validate] raises nothing: it returns [True] without logging
    when its eight assertions hold, and otherwise returns [False] after
    logging one error that carries the message of the first assertion that
    fails. *)
Theorem validate_reports_first_failure cfg :
  validate cfg =
    match first_failure cfg with
    | None => (Ret true, [])
    | Some msg => (Ret false, [Log ERROR ("Configuration validation failed: " +:+ msg)])
    end.
Proof.
  unfold validate, first_failure, validations. cbn [List.find fst snd negb].
  destruct (Py.truthy (youtube_api_key cfg)); [| reflexivity].
  destruct (nonempty (youtube_channel_ids cfg)); [| reflexivity].
  destruct (Py.truthy (sendgrid_api_key cfg)); [| reflexivity].
  destruct (Py.truthy (sender_email cfg)); [| reflexivity].
  destruct (Py.truthy (recipient_email cfg)); [| reflexivity].
  destruct (Py.contains "@" (sender_email cfg)); [| reflexivity].
  destruct (Py.contains "@" (recipient_email cfg)); [| reflexivity].
  destruct (0 <? check_interval_hours cfg); reflexivity.
Qed.

Lemma truthy_nonempty s : s <> "" -> Py.truthy s = true.
Proof. by destruct s. Qed.

(** X4. On a configuration built by [Config.__init__] the first five
    assertions of [Config.validate] always hold: it returns [True] exactly
    when both addresses contain an at-sign and the interval is positive. *)
Theorem validate_of_built_config env cfg t :
  Config_init env = (Ret cfg, t) ->
  fst (validate cfg) =
    Ret (Py.contains "@" (sender_email cfg) && Py.contains "@" (recipient_email cfg)
         && (0 <? check_interval_hours cfg)).
Proof.
  intros Hinit.
  destruct (Config_init_inv env cfg t Hinit)
    as (v2 & Hfa & H1 & H2 & Hids & H3 & H4 & H5 & _).
  assert (forall key v, key ∈ required_keys -> env !! key = Some v -> Py.truthy v = true)
    as Hne.
  { intros key v Hkey Hv. pose proof (first_absent_none env key Hfa Hkey) as Hb.
    unfold absentb in Hb. rewrite Hv in Hb. by destruct (Py.truthy v). }
  unfold required_keys in Hne.
  rewrite validate_reports_first_failure.
  unfold first_failure, validations. cbn [List.find fst snd negb].
  rewrite (Hne "YOUTUBE_API_KEY" _ ltac:(set_solver) H1),
    (Hne "SENDGRID_API_KEY" _ ltac:(set_solver) H3),
    (Hne "SENDER_EMAIL" _ ltac:(set_solver) H4),
    (Hne "RECIPIENT_EMAIL" _ ltac:(set_solver) H5).
  assert (nonempty (youtube_channel_ids cfg) = true) as ->.
  { rewrite Hids. unfold Py.split. pose proof (split_go_nonempty "," "" v2).
    by destruct (Py.split_go "," "" v2). }
  cbn [negb].
  destruct (Py.contains "@" (sender_email cfg)); [| reflexivity].
  destruct (Py.contains "@" (recipient_email cfg)); [| reflexivity].
  destruct (0 <? check_interval_hours cfg); reflexivity.
Qed.

Lemma validate_of_built_config_witness :
  exists cfg t,
    Config_init env_sender_without_at = (Ret cfg, t) /\
    fst (validate cfg) =
      Ret (Py.contains "@" (sender_email cfg) && Py.contains "@" (recipient_email cfg)
           && (0 <? check_interval_hours cfg)).
Proof.
  eexists _, _. split; [vm_compute; reflexivity |].
  exact (validate_of_built_config env_sender_without_at _ _ eq_refl).
Defined.

(** ** Daily cycle and polling loop *)

Lemma dispatch_attempts_app t1 t2 :
  dispatch_attempts (t1 ++ t2) = (dispatch_attempts t1 + dispatch_attempts t2)%nat.
Proof. unfold dispatch_attempts. by rewrite List.filter_app, length_app. Qed.

Lemma no_dispatch_attempts t : List.filter is_dispatch t = [] -> dispatch_attempts t = 0%nat.
Proof. unfold dispatch_attempts. by intros ->. Qed.

(** A cycle that is not gated: its trace continues that of the selector. *)
Lemma send_daily_sermon_not_gated fuel w self :
  last_sermon_date self <> Some (today w) ->
  exists t',
    snd (fst (send_daily_sermon fuel w self)) =
      snd (fst (get_random_sermon fuel w self)) ++ t' /\
    (dispatch_attempts t' <= 1)%nat /\
    (fst (fst (get_random_sermon fuel w self)) = Ret None -> dispatch_attempts t' = 0%nat).
Proof.
  intros Hdate.
  destruct (get_random_sermon_summary fuel w self)
    as (r & t & self1 & Hsel & _ & _ & _ & Hcases).
  rewrite Hsel. cbn [fst snd].
  destruct Hcases as [[-> ->] | [[-> ->] | (v & -> & ->)]].
  - rewrite (send_daily_sermon_no_sermon fuel w self t Hdate Hsel).
    eexists. split; [reflexivity |]. cbn. split; [lia | done].
  - rewrite (send_daily_sermon_out_of_fuel fuel w self t Hdate Hsel).
    exists []. split; [by rewrite app_nil_r |]. cbn. split; [lia | done].
  - destruct (send_daily_sermon_selected fuel w self v t Hdate Hsel) as (lvl & msg & ->).
    destruct (accepted_dispatch _); eexists; (split; [reflexivity |]); cbn;
      (split; [lia | done]).
Qed.

(** X5. A daily cycle raises nothing, leaves the configuration alone and
    attempts at most one dispatch. *)
Theorem send_daily_sermon_contained fuel w self :
  (forall e, fst (fst (send_daily_sermon fuel w self)) <> Raise e) /\
  config (snd (send_daily_sermon fuel w self)) = config self /\
  (dispatch_attempts (snd (fst (send_daily_sermon fuel w self))) <= 1)%nat.
Proof.
  destruct (send_daily_sermon_step fuel w self)
    as (r & t & self' & Hrun & Hnr & Hcfg & _ & _).
  split; [by rewrite Hrun |]. split; [by rewrite Hrun |].
  destruct (decide (last_sermon_date self = Some (today w))) as [Hdate | Hdate].
  { rewrite (send_daily_sermon_gated fuel w self Hdate). cbn. lia. }
  destruct (send_daily_sermon_not_gated fuel w self Hdate) as (t' & -> & Hle & _).
  destruct (get_random_sermon_summary fuel w self)
    as (r1 & t1 & self1 & -> & _ & _ & Hnd & _).
  cbn [fst snd]. rewrite dispatch_attempts_app, (no_dispatch_attempts t1 Hnd). lia.
Qed.

(** X6. When every configured channel yields nothing, a cycle that is not
    gated logs the two errors, attempts no dispatch and leaves the object
    as it was. *)
Theorem no_candidates_no_dispatch fuel w self t :
  last_sermon_date self <> Some (today w) ->
  pool_of fuel w self = (Ret [], t) ->
  send_daily_sermon fuel w self =
    ((Ret tt, t ++ [Log ERROR "No sermons found in configured channels";
                    Log ERROR "Failed to get sermon"]), self) /\
  dispatch_attempts (snd (fst (send_daily_sermon fuel w self))) = 0%nat.
Proof.
  intros Hdate Hpool.
  pose proof (get_random_sermon_empty fuel w self t Hpool) as Hsel.
  rewrite (send_daily_sermon_no_sermon fuel w self _ Hdate Hsel).
  rewrite <- app_assoc. split; [reflexivity |]. cbn [fst snd].
  rewrite dispatch_attempts_app. cbn.
  pose proof (fetch_all_no_dispatch fuel (youtube w) (youtube_channel_ids (config self)) [])
    as Hnd.
  fold (pool_of fuel w self) in Hnd. rewrite Hpool in Hnd. cbn [snd] in Hnd.
  rewrite (no_dispatch_attempts t Hnd). lia.
Qed.

Lemma no_candidates_no_dispatch_witness :
  dispatch_attempts
    (snd (fst (send_daily_sermon 5 (MkWorld day1 yt_quota sendgrid_accepts 0) emailer_new)))
    = 0%nat.
Proof.
  apply (no_candidates_no_dispatch 5 (MkWorld day1 yt_quota sendgrid_accepts 0) emailer_new
           (snd (pool_of 5 (MkWorld day1 yt_quota sendgrid_accepts 0) emailer_new))).
  - discriminate.
  - vm_compute. reflexivity.
Defined.

(** X7. When the pool is not empty and the email provider accepts what it
    is sent, a cycle that is not gated sends exactly one message, the one
    built for a video of the pool from the configured sender to the
    configured recipient, and records today's date and that video. *)
Theorem accepted_dispatch_records_today fuel w self pool t :
  last_sermon_date self <> Some (today w) ->
  pool_of fuel w self = (Ret pool, t) -> pool <> [] ->
  (forall m, sendgrid w m = Answer 202) ->
  exists v, v ∈ pool /\
    fst (fst (send_daily_sermon fuel w self)) = Ret tt /\
    snd (send_daily_sermon fuel w self) =
      MkSermonEmailer (config self) (Some (today w)) (Some (video_id v)) /\
    List.filter is_dispatch (snd (fst (send_daily_sermon fuel w self))) =
      [SendGridSend (mail_for self v) (Answer 202)] /\
    from_email (mail_for self v) = sender_email (config self) /\
    to_emails (mail_for self v) = recipient_email (config self).
Proof.
  intros Hdate Hpool Hne Hacc.
  destruct (get_random_sermon_pick fuel w self pool t Hpool Hne) as (v & Hv & Hsel).
  exists v. split; [eapply candidates_subset, list_elem_of_lookup_2, Hv |].
  destruct (send_daily_sermon_selected fuel w self v t Hdate Hsel) as (lvl & msg & ->).
  rewrite Hacc. cbn [accepted_dispatch Z.eqb Pos.eqb fst snd].
  split; [done |]. split; [done |]. split; [| done].
  pose proof (fetch_all_no_dispatch fuel (youtube w) (youtube_channel_ids (config self)) [])
    as Hnd.
  fold (pool_of fuel w self) in Hnd. rewrite Hpool in Hnd. cbn [snd] in Hnd.
  by rewrite List.filter_app, Hnd.
Qed.

Lemma accepted_dispatch_records_today_witness :
  exists v, v ∈ [video_a; video_b] /\
    snd (send_daily_sermon 5 world_two emailer_new) =
      MkSermonEmailer config_UC1 (Some day1) (Some (video_id v)).
Proof.
  destruct (accepted_dispatch_records_today 5 world_two emailer_new [video_a; video_b]
              (snd (pool_of 5 world_two emailer_new)))
    as (v & Hin & _ & Hobj & _).
  - discriminate.
  - vm_compute. reflexivity.
  - discriminate.
  - reflexivity.
  - exists v. split; [exact Hin | exact Hobj].
Defined.

(** X8. Over any passes of the polling loop nothing is raised, the
    configuration stays the same, and [last_sermon_date] differs from what
    it was only if some dispatch was accepted. *)
Theorem polling_changes_date_only_on_success passes self :
  (forall e, fst (fst (polling passes self)) <> Raise e) /\
  config (snd (polling passes self)) = config self /\
  (last_sermon_date (snd (polling passes self)) <> last_sermon_date self ->
   (1 <= successful_dispatches (snd (fst (polling passes self))))%nat).
Proof.
  revert self. induction passes as [| [due [fuel w]] rest IH]; intros self; [done |].
  rewrite polling_cons. destruct due.
  - destruct (send_daily_sermon_step fuel w self)
      as (r & t & self' & -> & Hnr & Hcfg & _ & Hcount).
    destruct r as [[] | e |]; [| by destruct (Hnr e) |].
    + cbn [fst snd]. destruct (IH self') as (Hnr' & Hcfg' & Hdate').
      split; [done |]. split; [congruence |].
      rewrite successful_dispatches_app.
      destruct Hcount as [[_ Hd] | (-> & _)]; [| lia].
      rewrite <- Hd. intros Hneq. specialize (Hdate' Hneq). lia.
    + cbn [fst snd]. split; [done |]. split; [done |].
      destruct Hcount as [[_ Hd] | (_ & _ & [=])]. congruence.
  - cbn [fst snd app]. apply IH.
Qed.

(** The selector's trace continues that of the aggregation. *)
Lemma get_random_sermon_trace fuel w self :
  exists t', snd (fst (get_random_sermon fuel w self)) = snd (pool_of fuel w self) ++ t'.
Proof.
  destruct (pool_of fuel w self) as [rp t] eqn:Hpool. cbn [snd].
  pose proof (fetch_all_never_raises fuel (youtube w) (youtube_channel_ids (config self)) [])
    as Hnr.
  fold (pool_of fuel w self) in Hnr. rewrite Hpool in Hnr. cbn [fst] in Hnr.
  destruct rp as [pool | e |].
  - destruct (decide (pool = [])) as [-> | Hne].
    + rewrite (get_random_sermon_empty fuel w self t Hpool). by eexists.
    + destruct (get_random_sermon_pick fuel w self pool t Hpool Hne) as (v & _ & ->).
      exists []. by rewrite app_nil_r.
  - by destruct (Hnr e).
  - exists []. unfold pool_of in Hpool.
    unfold get_random_sermon, mtry, mbind, get_self, lift, ret. rewrite Hpool.
    by rewrite app_nil_r.
Qed.

(** A channel video fetch begins by asking for the channel. *)
Lemma get_channel_videos_first_event fuel yt cid max :
  exists t', snd (get_channel_videos fuel yt cid max)
             = ChannelsList cid (channels_list yt cid) :: t'.
Proof.
  destruct (channels_list_cases yt cid) as [Hf | (pl & rest & Hch)].
  - destruct (get_channel_videos_unresolved fuel yt cid max Hf) as [msg ->]. by eexists.
  - destruct (fetch_pages fuel yt pl max [] None) as [r t] eqn:Hfetch.
    pose proof (get_channel_videos_resolved fuel yt cid max pl rest r t Hch Hfetch) as H.
    rewrite Hch. destruct r as [vs | e' |]; cbv zeta in H.
    + rewrite H. by eexists.
    + destruct H as [msg ->]. by eexists.
    + rewrite H. by eexists.
Qed.

Lemma fetch_all_first_event fuel yt cid rest acc :
  exists t', snd (fetch_all fuel yt (cid :: rest) acc)
             = ChannelsList cid (channels_list yt cid) :: t'.
Proof.
  cbn [fetch_all].
  destruct (get_channel_videos_first_event fuel yt cid 50) as [t1 Ht1].
  destruct (get_channel_videos fuel yt cid 50) as [[vs | e |] t]; cbn [snd] in Ht1;
    subst t; cbn [bind]; try by eexists.
  destruct (fetch_all fuel yt rest (acc ++ vs)) as [r' t']. by eexists.
Qed.

(** X9. A cycle that ends without an accepted dispatch does not close the
    day: with a channel configured, the next cycle of the same day is not
    gated and asks the video provider again. *)
Theorem failed_cycle_is_retried fuel w self fuel' w' :
  last_sermon_date self <> Some (today w) ->
  youtube_channel_ids (config self) <> [] ->
  successful_dispatches (snd (fst (send_daily_sermon fuel w self))) = 0%nat ->
  today w' = today w ->
  (1 <= requests (snd (fst (send_daily_sermon fuel' w' (snd (send_daily_sermon fuel w self))))))%nat.
Proof.
  intros Hdate Hids Hzero Hday.
  pose proof (failed_dispatch_keeps_last_sermon_date fuel w self Hzero) as Hkept.
  assert (config (snd (send_daily_sermon fuel w self)) = config self) as Hcfg.
  { destruct (send_daily_sermon_step fuel w self) as (r & t & s & -> & _ & Hc & _).
    exact Hc. }
  set (self' := snd (send_daily_sermon fuel w self)) in *.
  assert (last_sermon_date self' <> Some (today w')) as Hdate' by congruence.
  destruct (send_daily_sermon_not_gated fuel' w' self' Hdate') as (t1 & -> & _).
  destruct (get_random_sermon_trace fuel' w' self') as [t2 ->].
  unfold pool_of. rewrite Hcfg.
  destruct (youtube_channel_ids (config self)) as [| cid rest]; [done |].
  destruct (fetch_all_first_event fuel' (youtube w') cid rest []) as [t3 ->].
  rewrite !requests_app. cbn. lia.
Qed.

Lemma failed_cycle_is_retried_witness :
  (1 <= requests (snd (fst (send_daily_sermon 5 world_refused
                               (snd (send_daily_sermon 5 world_refused emailer_new))))))%nat.
Proof.
  apply (failed_cycle_is_retried 5 world_refused emailer_new 5 world_refused).
  - discriminate.
  - discriminate.
  - vm_compute. reflexivity.
  - reflexivity.
Defined.


(** When [Config.__init__] raises, [main] logs the error and stops before
    [run]. *)
Lemma main_stopped env first passes e t :
  Config_init env = (Raise e, t) ->
  main env first passes =
    ((Ret tt, t ++ [Log ERROR ("Sermon Emailer service stopped due to error: "
                               +:+ exn_str e)]), None) /\
  ~ loop_started (snd (fst (main env first passes))).
Proof.
  intros Hinit. unfold main, SermonEmailer_init. rewrite Hinit. cbn [bind].
  split; [reflexivity |]. cbn [fst snd].
  destruct (Config_init_cases env) as [(cfg & Hcfg & _) | (e' & ids & Hraise)];
    [congruence |].
  rewrite Hinit in Hraise. injection Hraise as _ ->.
  unfold loop_started. intros [Hin | Hin]%elem_of_app.
  - by apply format_warnings_not_info in Hin.
  - apply list_elem_of_singleton in Hin. discriminate.
Qed.

(** X11. The process enters [run] exactly when [Config.__init__] builds a
    configuration: then the start is logged and the object exists; when it
    raises, the error is logged, no object exists and the start is never
    logged. *)
Theorem startup_iff_config_built env first passes :
  match fst (Config_init env) with
  | Ret cfg =>
      loop_started (snd (fst (main env first passes))) /\
      is_Some (snd (main env first passes))
  | Raise e =>
      fst (fst (main env first passes)) = Ret tt /\
      snd (main env first passes) = None /\
      Log ERROR ("Sermon Emailer service stopped due to error: " +:+ exn_str e)
        ∈ snd (fst (main env first passes)) /\
      ~ loop_started (snd (fst (main env first passes)))
  | OutOfFuel => False
  end.
Proof.
  destruct (Config_init env) as [[cfg | e |] t] eqn:Hinit; cbn [fst].
  - destruct (main_started env first passes (MkSermonEmailer cfg None None) t)
      as (r & t' & self' & -> & Hstarted).
    { unfold SermonEmailer_init. rewrite Hinit, bind_ret_l. cbn [ret fst snd].
      by rewrite app_nil_r. }
    by split.
  - destruct (main_stopped env first passes e t Hinit) as [Hmain Hnot].
    split; [by rewrite Hmain |]. split; [by rewrite Hmain |]. split; [| done].
    rewrite Hmain. cbn [fst snd]. apply elem_of_app. right. by apply elem_of_cons; left.
  - destruct (Config_init_cases env) as [(cfg & Hcfg & _) | (e' & ids & Hraise)];
      congruence.
Qed.




(** ** Channel video source *)

Lemma fetch_pages_sizes fuel yt pl max videos tok :
  forallb (page_size_ok max) (snd (fetch_pages fuel yt pl max videos tok)) = true.
Proof.
  revert videos tok. induction fuel as [| fuel IH]; intros videos tok.
  - cbn [fetch_pages]. by destruct (len videos <? max).
  - destruct (Z.lt_ge_cases (len videos) max) as [Hlt | Hge];
      [| by rewrite fetch_pages_done].
    rewrite (fetch_pages_step fuel yt pl max videos tok Hlt). cbv zeta.
    assert (page_size_ok max (PlaylistItemsList pl (Z.min 50 (max - len videos)) tok
              (playlistItems_list yt pl (Z.min 50 (max - len videos)) tok)) = true) as Hev.
    { cbn [page_size_ok]. unfold len in *.
      repeat (apply andb_true_intro; split); apply Z.leb_le; lia. }
    destruct (playlistItems_list _ _ _ _) as [resp | e]; [| cbn [snd forallb]; by rewrite Hev].
    destruct (items resp) as [its |]; [| cbn [snd forallb]; by rewrite Hev].
    destruct (well_formed_items its); [| cbn [snd forallb]; by rewrite Hev].
    destruct (token_truthy (nextPageToken resp)); cbn [snd forallb]; rewrite Hev; [| done].
    apply IH.
Qed.

(** X13. Whatever the provider answers, every page request of a channel
    video fetch asks for at least one item, at most 50, and no more than
    [max_results]. *)
Theorem get_channel_videos_page_sizes fuel yt cid max :
  forallb (page_size_ok max) (snd (get_channel_videos fuel yt cid max)) = true.
Proof.
  destruct (channels_list_cases yt cid) as [Hf | (pl & rest & Hch)].
  - destruct (get_channel_videos_unresolved fuel yt cid max Hf) as [msg ->]. done.
  - destruct (fetch_pages fuel yt pl max [] None) as [r t] eqn:Hfetch.
    pose proof (get_channel_videos_resolved fuel yt cid max pl rest r t Hch Hfetch) as H.
    pose proof (fetch_pages_sizes fuel yt pl max [] None) as Hs.
    rewrite Hfetch in Hs. cbn [snd] in Hs.
    destruct r as [vs | e' |]; cbv zeta in H.
    + rewrite H. cbn [snd forallb page_size_ok]. by rewrite forallb_app, Hs.
    + destruct H as [msg ->]. cbn [snd forallb page_size_ok]. by rewrite forallb_app, Hs.
    + rewrite H. cbn [snd forallb page_size_ok]. done.
Qed.

Lemma fetch_pages_tokens fuel yt pl max videos tok :
  follows_tokens pl tok (snd (fetch_pages fuel yt pl max videos tok)) = true.
Proof.
  revert videos tok. induction fuel as [| fuel IH]; intros videos tok.
  - cbn [fetch_pages]. by destruct (len videos <? max).
  - destruct (Z.lt_ge_cases (len videos) max) as [Hlt | Hge];
      [| by rewrite fetch_pages_done].
    rewrite (fetch_pages_step fuel yt pl max videos tok Hlt). cbv zeta.
    destruct (playlistItems_list _ _ _ _) as [resp | e];
      [| cbn; by rewrite !bool_decide_eq_true_2].
    destruct (items resp) as [its |]; [| cbn; by rewrite !bool_decide_eq_true_2].
    destruct (well_formed_items its); [| cbn; by rewrite !bool_decide_eq_true_2].
    destruct (token_truthy (nextPageToken resp));
      cbn [snd follows_tokens announced]; rewrite !bool_decide_eq_true_2 by done;
      [| done].
    apply IH.
Qed.

Lemma follows_tokens_app_log pl tok t lvl msg :
  follows_tokens pl tok (t ++ [Log lvl msg]) = follows_tokens pl tok t.
Proof.
  revert tok. induction t as [| e t IH]; intros tok; [done |].
  destruct e; cbn [app follows_tokens]; by rewrite IH.
Qed.

(** X14. When the channel resolves, every page request of the fetch names
    the uploads playlist of the first channel item; the first carries no
    page token and each later one carries the next-page token the preceding
    answer announced. *)
Theorem get_channel_videos_follows_tokens fuel yt cid max pl rest :
  channels_list yt cid = Answer (Some (Some pl :: rest)) ->
  follows_tokens pl None (snd (get_channel_videos fuel yt cid max)) = true.
Proof.
  intros Hch.
  destruct (fetch_pages fuel yt pl max [] None) as [r t] eqn:Hfetch.
  pose proof (get_channel_videos_resolved fuel yt cid max pl rest r t Hch Hfetch) as H.
  pose proof (fetch_pages_tokens fuel yt pl max [] None) as Hs.
  rewrite Hfetch in Hs. cbn [snd] in Hs.
  destruct r as [vs | e' |]; cbv zeta in H.
  + rewrite H. cbn [snd follows_tokens]. by rewrite follows_tokens_app_log.
  + destruct H as [msg ->]. cbn [snd follows_tokens]. by rewrite follows_tokens_app_log.
  + rewrite H. cbn [snd follows_tokens]. done.
Qed.

Lemma get_channel_videos_follows_tokens_witness :
  follows_tokens "UU1" None (snd (get_channel_videos 75 yt_paged "UC1" 75)) = true.
Proof.
  apply (get_channel_videos_follows_tokens 75 yt_paged "UC1" 75 "UU1" []).
  reflexivity.
Defined.

(** X15. When the channel does not resolve (the call raises, or the
    response has no item or lacks the uploads playlist), the fetch sends no
    page request: it returns the empty list after that one exchange and one
    error record. *)
Theorem unresolved_channel_sends_no_page_request fuel yt cid max :
  failed_exchange (ChannelsList cid (channels_list yt cid)) = true ->
  fst (get_channel_videos fuel yt cid max) = Ret [] /\
  page_requests (snd (get_channel_videos fuel yt cid max)) = 0%nat /\
  requests (snd (get_channel_videos fuel yt cid max)) = 1%nat /\
  exists msg, List.filter (fun e => negb (is_request e))
                (snd (get_channel_videos fuel yt cid max)) = [Log ERROR msg].
Proof.
  intros Hf. destruct (get_channel_videos_unresolved fuel yt cid max Hf) as [msg ->].
  cbn. repeat split. by exists msg.
Qed.

Lemma unresolved_channel_sends_no_page_request_witness :
  page_requests (snd (get_channel_videos 5 yt_two "UC-unknown" 50)) = 0%nat.
Proof.
  apply (unresolved_channel_sends_no_page_request 5 yt_two "UC-unknown" 50).
  reflexivity.
Defined.

(** X16. With [max_results] zero or negative the loop body is never
    entered: the fetch returns the empty list and sends no page request,
    whatever the fuel. *)
Theorem get_channel_videos_nothing_asked fuel yt cid max :
  max <= 0 ->
  fst (get_channel_videos fuel yt cid max) = Ret [] /\
  page_requests (snd (get_channel_videos fuel yt cid max)) = 0%nat.
Proof.
  intros Hmax.
  destruct (channels_list_cases yt cid) as [Hf | (pl & rest & Hch)].
  - destruct (get_channel_videos_unresolved fuel yt cid max Hf) as [msg ->]. done.
  - pose proof (get_channel_videos_resolved fuel yt cid max pl rest (Ret []) []
                  Hch (fetch_pages_done fuel yt pl max [] None Hmax)) as H.
    cbv zeta in H. rewrite H. done.
Qed.

Lemma get_channel_videos_nothing_asked_witness :
  fst (get_channel_videos 0 yt_two "UC1" 0) = Ret [] /\
  page_requests (snd (get_channel_videos 0 yt_two "UC1" 0)) = 0%nat.
Proof. apply (get_channel_videos_nothing_asked 0 yt_two "UC1" 0). lia. Defined.

Lemma fetch_pages_videos fuel yt pl max videos tok vs :
  fst (fetch_pages fuel yt pl max videos tok) = Ret vs ->
  vs = videos ++ answered_videos (snd (fetch_pages fuel yt pl max videos tok)).
Proof.
  revert videos tok. induction fuel as [| fuel IH]; intros videos tok.
  - cbn [fetch_pages]. destruct (len videos <? max); [done |].
    cbn. intros [= <-]. by rewrite app_nil_r.
  - destruct (Z.lt_ge_cases (len videos) max) as [Hlt | Hge].
    2:{ rewrite fetch_pages_done by done. cbn. intros [= <-]. by rewrite app_nil_r. }
    rewrite (fetch_pages_step fuel yt pl max videos tok Hlt). cbv zeta.
    destruct (playlistItems_list _ _ _ _) as [resp | e]; [| done].
    destruct (items resp) as [its |] eqn:Hits; [| done].
    destruct (well_formed_items its); [| done].
    destruct (token_truthy (nextPageToken resp)); cbn [fst snd answered_videos];
      rewrite Hits.
    + intros Hret. rewrite (IH _ _ Hret) at 1. by rewrite <- app_assoc.
    + intros [= <-]. by rewrite app_nil_r.
Qed.

Lemma answered_videos_app_log t lvl msg :
  answered_videos (t ++ [Log lvl msg]) = answered_videos t.
Proof.
  induction t as [| e t IH]; [done |].
  destruct e as [| | pl n tok [resp | x] |]; cbn [app answered_videos]; try done.
  destruct (items resp); by rewrite IH.
Qed.

(** X17. The list a channel video fetch returns is empty if an exchange
    failed, and otherwise holds the videos of the pages answered, page after
    page and in the order of each page: none dropped, repeated or moved. *)
Theorem get_channel_videos_keeps_order fuel yt cid max vs :
  fst (get_channel_videos fuel yt cid max) = Ret vs ->
  vs = if existsb failed_exchange (snd (get_channel_videos fuel yt cid max)) then []
       else answered_videos (snd (get_channel_videos fuel yt cid max)).
Proof.
  destruct (channels_list_cases yt cid) as [Hf | (pl & rest & Hch)].
  { destruct (get_channel_videos_unresolved fuel yt cid max Hf) as [msg ->].
    cbn [fst snd existsb]. rewrite Hf. by intros [= <-]. }
  destruct (fetch_pages fuel yt pl max [] None) as [r t] eqn:Hfetch.
  pose proof (get_channel_videos_resolved fuel yt cid max pl rest r t Hch Hfetch) as H.
  destruct (fetch_pages_trace fuel yt pl max [] None) as (_ & _ & Hfail).
  pose proof (fetch_pages_videos fuel yt pl max [] None) as Hvs.
  rewrite Hfetch in Hfail, Hvs. cbn [fst snd] in Hfail, Hvs.
  destruct r as [vs' | e' |]; cbv zeta in H.
  - rewrite H. cbn [fst snd existsb failed_exchange orb answered_videos].
    rewrite existsb_app_logs by done. rewrite Hfail, answered_videos_app_log.
    intros [= <-]. by apply Hvs.
  - destruct H as [msg ->]. cbn [fst snd existsb failed_exchange orb].
    rewrite existsb_app_logs by done. rewrite Hfail. by intros [= <-].
  - by rewrite H.
Qed.

Lemma get_channel_videos_keeps_order_witness :
  [video_a; video_b] = answered_videos (snd (get_channel_videos 5 yt_two "UC1" 50)).
Proof.
  exact (get_channel_videos_keeps_order 5 yt_two "UC1" 50 [video_a; video_b] eq_refl).
Defined.

Lemma fetch_pages_request_count fuel yt pl max videos tok :
  honours_page_size yt -> pages_make_progress yt -> len videos <= max ->
  (page_requests (snd (fetch_pages fuel yt pl max videos tok))
   <= Z.to_nat (max - len videos))%nat.
Proof.
  intros Hsize Hprog. revert videos tok.
  induction fuel as [| fuel IH]; intros videos tok Hle.
  - cbn [fetch_pages]. destruct (len videos <? max); cbn; lia.
  - destruct (Z.lt_ge_cases (len videos) max) as [Hlt | Hge];
      [| rewrite fetch_pages_done by done; cbn; lia].
    rewrite (fetch_pages_step fuel yt pl max videos tok Hlt). cbv zeta.
    destruct (playlistItems_list _ _ _ _) as [resp | e] eqn:Hasked; [| cbn; lia].
    destruct (items resp) as [its |] eqn:Hits; [| cbn; lia].
    destruct (well_formed_items its) eqn:Hwf; [| cbn; lia].
    assert (0 < Z.min 50 (max - len videos)) as Hpos by lia.
    pose proof (Hsize _ _ _ _ _ Hpos Hasked Hits) as Hn.
    pose proof (well_formed_items_length its Hwf) as Hlen.
    assert (len (videos ++ omap (fmap video_of_item) its) = len videos + len its)
      as Hnew by (unfold len in *; rewrite length_app; lia).
    destruct (token_truthy (nextPageToken resp)) eqn:Htok; [| cbn; lia].
    pose proof (Hprog _ _ _ _ _ Hpos Hasked Hits Htok) as Hne.
    assert (1 <= len its) by (unfold len; destruct its; [done | simpl; lia]).
    cbn [snd]. change (?e :: ?l) with ([e] ++ l). rewrite page_requests_app.
    assert (len (videos ++ omap (fmap video_of_item) its) <= max) as Hle' by lia.
    specialize (IH (videos ++ omap (fmap video_of_item) its) (nextPageToken resp) Hle').
    unfold page_requests at 1. cbn [List.filter is_page_request length]. lia.
Qed.

(** X18. Against a provider that returns no more items than the page size
    asked for and whose continued pages are not empty, a fetch of at most
    [max_results] videos returns at most that many, with at most
    [max_results] page requests, as soon as it has [max_results] units of
    fuel. *)
Theorem get_channel_videos_bounded fuel yt cid max :
  honours_page_size yt -> pages_make_progress yt ->
  0 <= max -> (Z.to_nat max <= fuel)%nat ->
  exists vs t,
    get_channel_videos fuel yt cid max = (Ret vs, t) /\
    len vs <= max /\ (page_requests t <= Z.to_nat max)%nat.
Proof.
  intros Hsize Hprog Hmax Hfuel.
  destruct (get_channel_videos_returns yt Hsize Hprog fuel cid max Hmax Hfuel)
    as (vs & t & Hrun & Hlen).
  exists vs, t. split; [done |]. split; [done |].
  destruct (channels_list_cases yt cid) as [Hf | (pl & rest & Hch)].
  { destruct (get_channel_videos_unresolved fuel yt cid max Hf) as [msg Hun].
    rewrite Hun in Hrun. injection Hrun as _ <-. cbn. lia. }
  destruct (fetch_pages fuel yt pl max [] None) as [r t'] eqn:Hfetch.
  pose proof (get_channel_videos_resolved fuel yt cid max pl rest r t' Hch Hfetch) as H.
  pose proof (fetch_pages_request_count fuel yt pl max [] None Hsize Hprog) as Hcount.
  rewrite Hfetch in Hcount. cbn [snd] in Hcount.
  assert (page_requests t' <= Z.to_nat max)%nat as Hc.
  { unfold len in Hcount. cbn [length] in Hcount.
    assert (Z.of_nat 0 <= max) as H0 by lia. specialize (Hcount H0). lia. }
  destruct r as [vs' | e' |]; cbv zeta in H.
  - rewrite H in Hrun. injection Hrun as _ <-.
    change (?e :: ?l ++ ?m) with ([e] ++ l ++ m). rewrite !page_requests_app. cbn. lia.
  - destruct H as [msg H]. rewrite H in Hrun. injection Hrun as _ <-.
    change (?e :: ?l ++ ?m) with ([e] ++ l ++ m). rewrite !page_requests_app. cbn. lia.
  - congruence.
Qed.

Lemma get_channel_videos_bounded_witness :
  exists vs t,
    get_channel_videos 60 yt_paged "UC1" 60 = (Ret vs, t) /\
    len vs <= 60 /\ (page_requests t <= Z.to_nat 60)%nat.
Proof.
  apply (get_channel_videos_bounded 60 yt_paged "UC1" 60
           yt_paged_honours_page_size yt_paged_makes_progress); lia.
Defined.

(** ** Aggregation over the configured channels *)

Lemma fetch_all_fetched fuel yt ids acc pool :
  fst (fetch_all fuel yt ids acc) = Ret pool ->
  pool = acc ++ concat (fetched fuel yt <$> ids).
Proof.
  revert acc. induction ids as [| cid ids IH]; intros acc.
  - cbn. intros [= <-]. by rewrite app_nil_r.
  - cbn [fetch_all fmap list_fmap concat]. unfold fetched at 1.
    destruct (get_channel_videos fuel yt cid 50) as [[vs | e |] t]; cbn [bind fst];
      [| done | done].
    destruct (fetch_all fuel yt ids (acc ++ vs)) as [r' t'] eqn:Hrest. cbn [fst].
    intros ->. specialize (IH (acc ++ vs)). rewrite Hrest in IH.
    rewrite (IH eq_refl). by rewrite <- app_assoc.
Qed.

(** X19. The aggregate pool is the concatenation of what each configured
    channel's fetch returns, in the order the channels are configured. *)
Theorem pool_is_concatenation fuel w self pool t :
  pool_of fuel w self = (Ret pool, t) ->
  pool = concat (fetched fuel (youtube w) <$> youtube_channel_ids (config self)).
Proof.
  unfold pool_of. intros Hpool.
  apply (fetch_all_fetched fuel (youtube w) (youtube_channel_ids (config self)) []).
  by rewrite Hpool.
Qed.

Lemma pool_is_concatenation_witness :
  [video_a; video_b] = concat (fetched 5 yt_two <$> ["UC1"]).
Proof.
  exact (pool_is_concatenation 5 world_two emailer_new [video_a; video_b]
           (snd (pool_of 5 world_two emailer_new)) eq_refl).
Defined.

Lemma get_channel_videos_failed fuel yt cid max :
  existsb failed_exchange (snd (get_channel_videos fuel yt cid max)) = true ->
  fst (get_channel_videos fuel yt cid max) = Ret [].
Proof.
  destruct (channels_list_cases yt cid) as [Hf | (pl & rest & Hch)].
  - destruct (get_channel_videos_unresolved fuel yt cid max Hf) as [msg ->]. done.
  - destruct (fetch_pages fuel yt pl max [] None) as [r t] eqn:Hfetch.
    pose proof (get_channel_videos_resolved fuel yt cid max pl rest r t Hch Hfetch) as H.
    destruct (fetch_pages_trace fuel yt pl max [] None) as (_ & _ & Hfail).
    rewrite Hfetch in Hfail. cbn [fst snd] in Hfail.
    destruct r as [vs | e' |]; cbv zeta in H.
    + rewrite H. cbn [fst snd existsb failed_exchange orb].
      rewrite existsb_app_logs by done. congruence.
    + destruct H as [msg ->]. done.
    + rewrite H. cbn [fst snd existsb failed_exchange orb]. congruence.
Qed.

(** X20. A channel whose fetch meets a provider failure contributes
    nothing and stops nothing: the pool is the one the other channels
    give. *)
Theorem failing_channel_is_skipped fuel yt before bad after acc :
  existsb failed_exchange (snd (get_channel_videos fuel yt bad 50)) = true ->
  fst (fetch_all fuel yt (before ++ bad :: after) acc) =
  fst (fetch_all fuel yt (before ++ after) acc).
Proof.
  intros Hfail. revert acc. induction before as [| cid before IH]; intros acc.
  - cbn [app fetch_all].
    pose proof (get_channel_videos_failed fuel yt bad 50 Hfail) as Hempty.
    destruct (get_channel_videos fuel yt bad 50) as [r t]. cbn [fst] in Hempty. subst r.
    rewrite bind_ret_l. cbn [fst]. by rewrite app_nil_r.
  - cbn [app fetch_all].
    destruct (get_channel_videos fuel yt cid 50) as [[vs | e |] t]; [| done | done].
    rewrite !bind_ret_l. cbn [fst]. apply IH.
Qed.

Lemma failing_channel_is_skipped_witness :
  fst (fetch_all 5 yt_two (["UC1"] ++ "UC-unknown" :: []) []) =
  fst (fetch_all 5 yt_two (["UC1"] ++ []) []).
Proof.
  apply (failing_channel_is_skipped 5 yt_two ["UC1"] "UC-unknown" [] []). reflexivity.
Defined.

Lemma fetch_pages_bound fuel yt pl max videos tok vs :
  honours_page_size yt -> len videos <= max ->
  fst (fetch_pages fuel yt pl max videos tok) = Ret vs -> len vs <= max.
Proof.
  intros Hsize. revert videos tok. induction fuel as [| fuel IH]; intros videos tok Hle.
  - cbn [fetch_pages]. destruct (len videos <? max); [done |]. by intros [= <-].
  - destruct (Z.lt_ge_cases (len videos) max) as [Hlt | Hge];
      [| rewrite fetch_pages_done by done; by intros [= <-]].
    rewrite (fetch_pages_step fuel yt pl max videos tok Hlt). cbv zeta.
    destruct (playlistItems_list _ _ _ _) as [resp | e] eqn:Hasked; [| done].
    destruct (items resp) as [its |] eqn:Hits; [| done].
    destruct (well_formed_items its) eqn:Hwf; [| done].
    assert (0 < Z.min 50 (max - len videos)) as Hpos by lia.
    pose proof (Hsize _ _ _ _ _ Hpos Hasked Hits) as Hn.
    pose proof (well_formed_items_length its Hwf) as Hlen.
    assert (len (videos ++ omap (fmap video_of_item) its) <= max) as Hnew
      by (unfold len in *; rewrite length_app; lia).
    destruct (token_truthy (nextPageToken resp)); cbn [fst].
    + by apply IH.
    + by intros [= <-].
Qed.

Lemma get_channel_videos_bound fuel yt cid max vs :
  honours_page_size yt -> 0 <= max ->
  fst (get_channel_videos fuel yt cid max) = Ret vs -> len vs <= max.
Proof.
  intros Hsize Hmax.
  destruct (channels_list_cases yt cid) as [Hf | (pl & rest & Hch)].
  { destruct (get_channel_videos_unresolved fuel yt cid max Hf) as [msg ->].
    by intros [= <-]. }
  destruct (fetch_pages fuel yt pl max [] None) as [r t] eqn:Hfetch.
  pose proof (get_channel_videos_resolved fuel yt cid max pl rest r t Hch Hfetch) as H.
  pose proof (fetch_pages_bound fuel yt pl max [] None) as Hb.
  rewrite Hfetch in Hb. cbn [fst] in Hb.
  destruct r as [vs' | e' |]; cbv zeta in H.
  - rewrite H. intros [= <-]. by apply Hb.
  - destruct H as [msg ->]. by intros [= <-].
  - by rewrite H.
Qed.

(** X21. Against a provider that returns no more items than the page size
    asked for, each configured channel adds at most 50 videos to the pool:
    the selector draws from at most 50 videos per channel. *)
Theorem pool_at_most_50_per_channel fuel w self pool t :
  honours_page_size (youtube w) ->
  pool_of fuel w self = (Ret pool, t) ->
  len pool <= 50 * len (youtube_channel_ids (config self)).
Proof.
  intros Hsize Hpool. unfold pool_of in Hpool.
  rewrite (fetch_all_fetched fuel (youtube w) (youtube_channel_ids (config self)) [] pool)
    by (by rewrite Hpool).
  cbn [app]. clear Hpool. induction (youtube_channel_ids (config self)) as [| cid ids IH]; [done |].
  rewrite fmap_cons, concat_cons. unfold len in *. rewrite length_app. cbn [length].
  assert (Z.of_nat (length (fetched fuel (youtube w) cid)) <= 50) as Hc.
  { unfold fetched.
    destruct (fst (get_channel_videos fuel (youtube w) cid 50)) as [vs | e |] eqn:Hg;
      [| done | done].
    by apply (get_channel_videos_bound fuel (youtube w) cid 50 vs Hsize). }
  lia.
Qed.

Lemma pool_at_most_50_per_channel_witness :
  exists pool t,
    pool_of 75 world_paged emailer_new = (Ret pool, t) /\ len pool <= 50 * 1.
Proof.
  eexists _, _. split; [vm_compute; reflexivity |].
  eapply (pool_at_most_50_per_channel 75 world_paged emailer_new _ _
            yt_paged_honours_page_size).
  vm_compute. reflexivity.
Defined.

(** ** Video details *)

(** Reduce the reads of a response whose shape is known. *)
Ltac read_response :=
  repeat (cbn [getitem call item_id item_snippet item_contentDetails item_statistics];
          rewrite ?ret_bind, ?raise_bind).

(** Close a branch in which the empty dictionary is returned. *)
Ltac returns_empty :=
  read_response; eexists _, _; split; [reflexivity |]; left; split; [done | by eexists].

(** X22. [get_video_details] raises nothing.  It returns either the empty
    dictionary, after logging one error, or a dictionary with exactly the
    eight keys [id], [title], [description], [channel_title],
    [published_at], [duration], [view_count] and [like_count], logging
    nothing. *)
Theorem get_video_details_shape videos_list video_id :
  exists d t,
    get_video_details videos_list video_id = (Ret d, t) /\
    ((d = ∅ /\ exists msg, t = [Log ERROR msg]) \/ (dom d = detail_keys /\ t = [])).
Proof.
  unfold get_video_details.
  destruct (videos_list video_id) as [[[| [i sn cd st] rest] |] | e];
    [returns_empty | | returns_empty | destruct e; returns_empty].
  read_response.
  destruct i as [i |]; [read_response | returns_empty].
  destruct sn as [sn |]; [read_response | returns_empty].
  destruct (sn !! "title") as [ti |]; [read_response | returns_empty].
  destruct (sn !! "description") as [de |]; [read_response | returns_empty].
  destruct (sn !! "channelTitle") as [ch |]; [read_response | returns_empty].
  destruct (sn !! "publishedAt") as [pu |]; [read_response | returns_empty].
  destruct cd as [cd |]; [read_response | returns_empty].
  destruct (cd !! "duration") as [du |]; [read_response | returns_empty].
  destruct st as [st |]; [read_response | returns_empty].
  destruct (st !! "viewCount") as [vc |]; [read_response | returns_empty].
  eexists _, _. split; [reflexivity |]. right. split; [| done].
  unfold detail_keys. rewrite !dom_insert_L, dom_empty_L. set_solver.
Qed.

(** X23. When the first item of the response carries every field the code
    reads, [get_video_details] returns them under its own keys; the like
    count is the one of the statistics, or ["0"] when the statistics carry
    none. *)
Theorem get_video_details_values videos_list video_id i sn cd st rest
    ti de ch pu du vc :
  videos_list video_id = Answer (Some (VideoItem (Some i) (Some sn) (Some cd) (Some st) :: rest)) ->
  sn !! "title" = Some ti -> sn !! "description" = Some de ->
  sn !! "channelTitle" = Some ch -> sn !! "publishedAt" = Some pu ->
  cd !! "duration" = Some du -> st !! "viewCount" = Some vc ->
  exists d,
    get_video_details videos_list video_id = (Ret d, []) /\
    d !! "id" = Some i /\ d !! "title" = Some ti /\ d !! "description" = Some de /\
    d !! "channel_title" = Some ch /\ d !! "published_at" = Some pu /\
    d !! "duration" = Some du /\ d !! "view_count" = Some vc /\
    d !! "like_count" = Some (default "0" (st !! "likeCount")).
Proof.
  intros Hresp Hti Hde Hch Hpu Hdu Hvc. unfold get_video_details. rewrite Hresp.
  read_response. rewrite Hti. read_response. rewrite Hde. read_response.
  rewrite Hch. read_response. rewrite Hpu. read_response. rewrite Hdu. read_response.
  rewrite Hvc. read_response.
  eexists. split; [reflexivity |]. repeat split; by simplify_map_eq.
Qed.

Lemma get_video_details_values_witness :
  exists d,
    get_video_details videos_one "a" = (Ret d, []) /\
    d !! "id" = Some "a" /\ d !! "like_count" = Some "0".
Proof.
  destruct (get_video_details_values videos_one "a" "a"
              (<["title" := "Title a"]> (<["description" := "About a"]>
                (<["channelTitle" := "Channel 1"]>
                  (<["publishedAt" := "2024-01-01T00:00:00Z"]> ∅))))
              (<["duration" := "PT5M"]> ∅) (<["viewCount" := "12"]> ∅) []
              "Title a" "About a" "Channel 1" "2024-01-01T00:00:00Z" "PT5M" "12")
    as (d & Hrun & Hid & _ & _ & _ & _ & _ & _ & Hlike);
    try reflexivity.
  exists d. split; [exact Hrun |]. split; [exact Hid | exact Hlike].
Defined.

(** ** HTML messages *)

(** X24. [send_html_email] raises nothing and returns [True] exactly when
    SendGrid answers status 202 to the message.  The message always carries
    the HTML body first; the plain text body is assigned after it, and only
    when it is given and not empty. *)
Theorem send_html_email_accepted_iff_202 sg_html (self : EmailService) sub html plain :
  let message :=
    MkHtmlMail (es_sender_email self) (es_recipient_email self) sub
      (("text/html", html)
       :: match plain with
          | Some (String c s) => [("text/plain", String c s)]
          | _ => []
          end) in
  exists b lvl msg,
    send_html_email sg_html self sub html plain = (Ret b, [Log lvl msg]) /\
    (b = true <-> sg_html message = Answer 202).
Proof.
  intros message.
  assert (send_html_email sg_html self sub html plain =
          try_except
            (let* status_code := call (sg_html message) in
             if status_code =? 202 then
               let* _ := log INFO ("HTML email sent successfully to "
                                   +:+ es_recipient_email self) in
               ret true
             else
               let* _ := log ERROR ("Failed to send HTML email. Status code: "
                                    +:+ pretty status_code) in
               ret false)
            (fun e =>
               let* _ := log ERROR ("Error sending HTML email: " +:+ exn_str e) in
               ret false)) as ->.
  { unfold send_html_email, message. by destruct plain as [[| c s] |]. }
  destruct (sg_html message) as [status_code | e]; cbn [call].
  - rewrite ret_bind. destruct (status_code =? 202) eqn:Hstatus.
    + exists true. eexists _, _. split; [reflexivity |].
      apply Z.eqb_eq in Hstatus as ->. done.
    + exists false. eexists _, _. split; [reflexivity |].
      split; [done |]. intros [= ->]. done.
  - exists false. eexists _, _. split; [reflexivity |]. done.
Qed.

(** ** Dispatcher *)

(** X25. [send_email] raises nothing: it hands SendGrid one plain-text
    message from the configured sender to the configured recipient, logs
    one record, and returns [True] exactly when the answer is status 202;
    any other status, and any exception of the call, gives [False]. *)
Theorem send_email_accepted_iff_202 (es : EmailService) (sub bod : string) :
  let m := MkMail (es_sender_email es) (es_recipient_email es) sub "text/plain" bod in
  exists b lvl msg,
    send_email es sub bod = (Ret b, [SendGridSend m (sg es m); Log lvl msg]) /\
    (b = true <-> sg es m = Answer 202).
Proof.
  intros m. destruct (send_email_eq es sub bod) as (lvl & msg & Hrun). fold m in Hrun.
  eexists _, lvl, msg. split; [exact Hrun |]. cbn [accepted_dispatch].
  destruct (sg es m) as [status_code | e]; [| done].
  destruct (status_code =? 202) eqn:Hstatus.
  - apply Z.eqb_eq in Hstatus as ->. done.
  - split; [done |]. intros [= ->]. done.
Qed.

(** ** Channel identifiers *)

Lemma split_go_length sep cur s :
  length (Py.split_go sep cur s) = S (count_char sep s).
Proof.
  revert cur. induction s as [| c s IH]; intros cur; cbn [Py.split_go count_char];
    [done |].
  destruct (decide (c = sep)); cbn [length]; by rewrite IH.
Qed.

Lemma contains_rev_app c s1 s2 :
  Py.contains c (String.rev_app s1 s2) = Py.contains c s1 || Py.contains c s2.
Proof.
  revert s2. induction s1 as [| d s1 IH]; intros s2; [done |].
  cbn [String.rev_app]. rewrite IH. cbn [Py.contains].
  destruct (decide (d = c)); [by rewrite orb_true_r | done].
Qed.

Lemma contains_rev c s : Py.contains c (String.rev s) = Py.contains c s.
Proof. unfold String.rev. rewrite contains_rev_app. cbn. by rewrite orb_false_r. Qed.

Lemma contains_lstrip c s : Py.contains c s = false -> Py.contains c (Py.lstrip s) = false.
Proof.
  induction s as [| d s IH]; [done |]. cbn [Py.lstrip].
  destruct (Py.isspace d); [| done]. cbn [Py.contains].
  destruct (decide (d = c)); [done | exact IH].
Qed.

Lemma contains_strip c s : Py.contains c s = false -> Py.contains c (Py.strip s) = false.
Proof.
  intros H. unfold Py.strip, Py.rstrip.
  rewrite contains_rev. apply contains_lstrip. rewrite contains_rev.
  by apply contains_lstrip.
Qed.

Lemma split_go_pieces sep cur s :
  Py.contains sep cur = false ->
  Forall (fun piece => Py.contains sep piece = false) (Py.split_go sep cur s).
Proof.
  revert cur. induction s as [| c s IH]; intros cur Hcur; cbn [Py.split_go].
  - constructor; [by rewrite contains_rev | constructor].
  - destruct (decide (c = sep)) as [-> | Hne].
    + constructor; [by rewrite contains_rev | by apply IH].
    + apply IH. cbn [Py.contains]. by destruct (decide (c = sep)).
Qed.

Lemma first_char_lstrip s c :
  first_char (Py.lstrip s) = Some c -> Py.isspace c = false.
Proof.
  induction s as [| d s IH]; [done |]. cbn [Py.lstrip].
  destruct (Py.isspace d) eqn:Hd; [exact IH |]. by intros [= <-].
Qed.

Lemma lstrip_suffix s : exists pre, s = pre +:+ Py.lstrip s.
Proof.
  induction s as [| d s [pre IH]]; [by exists "" |]. cbn [Py.lstrip].
  destruct (Py.isspace d); [| by exists ""].
  exists (String d pre). change (String d s = String d (pre +:+ Py.lstrip s)).
  by f_equal.
Qed.

Lemma rev_app_app s1 s2 z :
  String.rev_app (s1 +:+ s2) z = String.rev_app s2 (String.rev_app s1 z).
Proof.
  revert z. induction s1 as [| d s1 IH]; intros z; [done |].
  cbn. apply IH.
Qed.

Lemma string_app_assoc (s1 s2 s3 : string) : (s1 +:+ s2) +:+ s3 = s1 +:+ (s2 +:+ s3).
Proof.
  induction s1 as [| d s1 IH]; [done |].
  change (String d ((s1 +:+ s2) +:+ s3) = String d (s1 +:+ (s2 +:+ s3))). by f_equal.
Qed.

Lemma string_app_nil_r (s : string) : s +:+ "" = s.
Proof.
  induction s as [| d s IH]; [done |].
  change (String d (s +:+ "") = String d s). by f_equal.
Qed.

Lemma rev_app_acc s z : String.rev_app s z = String.rev_app s "" +:+ z.
Proof.
  revert z. induction s as [| d s IH]; intros z; [done |].
  cbn [String.rev_app]. rewrite (IH (String d z)), (IH (String d "")).
  by rewrite string_app_assoc.
Qed.

Lemma rev_app_rev_app s1 s2 s3 :
  String.rev_app (String.rev_app s1 s2) s3 = String.rev_app s2 (s1 +:+ s3).
Proof.
  revert s2 s3. induction s1 as [| d s1 IH]; intros s2 s3; [done |].
  cbn [String.rev_app]. rewrite IH. done.
Qed.

Lemma rev_involutive s : String.rev (String.rev s) = s.
Proof.
  unfold String.rev. rewrite rev_app_rev_app. cbn [String.rev_app].
  apply string_app_nil_r.
Qed.

Lemma first_char_app s1 s2 : s1 <> "" -> first_char (s1 +:+ s2) = first_char s1.
Proof. by destruct s1. Qed.

Lemma rev_nonempty s : s <> "" -> String.rev s <> "".
Proof.
  intros Hne Hrev. apply Hne. by rewrite <- (rev_involutive s), Hrev.
Qed.

Lemma last_char_suffix pre s : s <> "" -> last_char (pre +:+ s) = last_char s.
Proof.
  intros Hne. unfold last_char, String.rev. rewrite rev_app_app, rev_app_acc.
  by apply first_char_app, rev_nonempty.
Qed.

Lemma strip_unpadded s : unpadded (Py.strip s) = true.
Proof.
  unfold unpadded, Py.strip, Py.rstrip.
  set (u := Py.lstrip s). set (y := Py.lstrip (String.rev u)).
  apply andb_true_intro. split.
  - destruct (first_char (String.rev y)) as [c |] eqn:Hc; [| done].
    assert (y <> "") as Hy by (intros Hy; by rewrite Hy in Hc).
    destruct (lstrip_suffix (String.rev u)) as [pre Hpre]. fold y in Hpre.
    assert (last_char (String.rev u) = Some c) as Hlast
      by (rewrite Hpre, last_char_suffix by done; exact Hc).
    unfold last_char in Hlast. rewrite rev_involutive in Hlast.
    by rewrite (first_char_lstrip s c Hlast).
  - unfold last_char. rewrite rev_involutive.
    destruct (first_char y) as [c |] eqn:Hc; [| done].
    by rewrite (first_char_lstrip (String.rev u) c Hc).
Qed.

(** X26. From a non-empty [YOUTUBE_CHANNEL_IDS], [_get_channel_ids] returns
    one identifier more than the value has commas; no identifier contains a
    comma, and none begins or ends with white space. *)
Theorem get_channel_ids_trimmed_pieces env v :
  env !! "YOUTUBE_CHANNEL_IDS" = Some v -> v <> "" ->
  exists channel_ids,
    fst (_get_channel_ids env) = Ret channel_ids /\
    length channel_ids = S (count_char "," v) /\
    Forall (fun cid => Py.contains "," cid = false /\ unpadded cid = true) channel_ids.
Proof.
  intros Hv Hne. rewrite (get_channel_ids_set env v Hv Hne). eexists.
  split; [reflexivity |]. split.
  - rewrite length_fmap. apply split_go_length.
  - apply Forall_fmap. unfold Py.split.
    eapply Forall_impl; [apply (split_go_pieces "," "" v); done |].
    intros piece Hpiece. cbn. split; [by apply contains_strip | apply strip_unpadded].
Qed.

Lemma get_channel_ids_trimmed_pieces_witness :
  exists channel_ids,
    fst (_get_channel_ids (<["YOUTUBE_CHANNEL_IDS" := " UC1 ,UC2"]> ∅)) = Ret channel_ids /\
    length channel_ids = 2%nat.
Proof.
  destruct (get_channel_ids_trimmed_pieces (<["YOUTUBE_CHANNEL_IDS" := " UC1 ,UC2"]> ∅)
              " UC1 ,UC2") as (ids & Hrun & Hlen & _).
  - reflexivity.
  - discriminate.
  - exists ids. split; [exact Hrun | exact Hlen].
Defined.

(** ** Selection *)

(** X27. Every candidate can be selected: for each video the exclusion
    leaves (or each video of the pool when it leaves none) some draw of
    [random.choice] makes the selector return that video's sermon and
    record its identifier. *)
Theorem every_candidate_is_reachable fuel w self pool t v :
  pool_of fuel w self = (Ret pool, t) ->
  v ∈ candidates (last_sermon_id self) pool ->
  exists d,
    get_random_sermon fuel (with_draw w d) self =
      ((Ret (Some (sermon_of v)), t), selected self v).
Proof.
  intros Hpool Hin.
  apply list_elem_of_lookup_1 in Hin as [i Hi].
  pose proof (lookup_lt_Some _ _ _ Hi) as Hlt.
  exists i.
  assert (pool <> []) as Hne.
  { intros ->. unfold candidates, available in Hi. cbn in Hi. done. }
  destruct (get_random_sermon_pick fuel (with_draw w i) self pool t Hpool Hne)
    as (v' & Hv' & ->).
  cbn [with_draw draw] in Hv'. rewrite Nat.mod_small in Hv' by done.
  by replace v' with v by congruence.
Qed.

Lemma every_candidate_is_reachable_witness :
  exists d,
    get_random_sermon 5 (with_draw world_two d) emailer_new =
      ((Ret (Some (sermon_of video_b)), snd (pool_of 5 world_two emailer_new)),
       selected emailer_new video_b).
Proof.
  apply (every_candidate_is_reachable 5 world_two emailer_new [video_a; video_b]).
  - vm_compute. reflexivity.
  - apply list_elem_of_In. simpl. auto.
Defined.
